(** * Auto-Avatars: the Libravatar lookup of [src/background/libravatar.js]

    A shallow embedding of [getAvatar] and of the table
    [SUPPORTED_CONTENT_TYPES], with the properties of the avatar
    resolution pipeline proved over it.

    - JavaScript strings are sequences of UTF-16 code units ([list N]).
    - The promise returned by an [async] function is either fulfilled with
      a value or rejected; effects (HTTP requests, body reads) are logged
      in a trace threaded through a small monad.
    - The browser, the network, the DNS and the preference store are the
      [World] in which a call runs. *)

From Stdlib Require Import String Ascii NArith ZArith List Lia DecimalString.
From stdpp Require Import base option list gmap.

(** ** JavaScript strings *)

Abbreviation jsstring := (list N) (only parsing).

(** A string literal of the source, as code units. *)
Definition lit (s : string) : jsstring :=
  N_of_ascii <$> list_ascii_of_string s.

Arguments lit : simpl never.

(** A single character of the source ('@', '/'). *)
Definition chr (a : ascii) : N := N_of_ascii a.

Arguments chr : simpl never.

(** [WhiteSpace] and [LineTerminator] of ECMAScript: the code units that
    [String.prototype.trim] strips. *)
Definition isWhiteSpace (c : N) : bool :=
  ((9 <=? c) && (c <=? 13) || (c =? 32) || (c =? 160) || (c =? 5760)
   || (8192 <=? c) && (c <=? 8202) || (c =? 8232) || (c =? 8233)
   || (c =? 8239) || (c =? 8287) || (c =? 12288) || (c =? 65279))%N.

Fixpoint trimStart (s : jsstring) : jsstring :=
  match s with
  | [] => []
  | c :: s' => if isWhiteSpace c then trimStart s' else s
  end.

Definition trimEnd (s : jsstring) : jsstring :=
  rev (trimStart (rev s)).

(** [String.prototype.trim]. *)
Definition trim (s : jsstring) : jsstring :=
  trimEnd (trimStart s).

(** A string of white space only. *)
Definition whitespace (s : jsstring) : Prop :=
  Forall (fun c => isWhiteSpace c = true) s.

(** A string that does not start with white space. *)
Definition starts_clean (s : jsstring) : Prop :=
  match s with
  | [] => True
  | c :: _ => isWhiteSpace c = false
  end.

(** [String.prototype.split] with a separator of one code unit: the pieces
    between the occurrences of [sep], all of them; the empty string gives
    one empty piece. *)
Fixpoint split (sep : N) (s : jsstring) : list jsstring :=
  match s with
  | [] => [[]]
  | c :: s' =>
      if (c =? sep)%N then [] :: split sep s'
      else match split sep s' with
           | [] => [[c]]
           | p :: ps => (c :: p) :: ps
           end
  end.

(** [`${n}`] for a number that is a non-negative integer (below 10^21,
    where JavaScript prints all the decimal digits). *)
Definition toString (n : N) : jsstring :=
  lit (NilEmpty.string_of_uint (N.to_uint n)).

(** [`${x}`] for a string that may be [undefined]. *)
Definition template (x : option jsstring) : jsstring :=
  match x with
  | Some s => s
  | None => lit "undefined"
  end.

(** Truthiness of a value that is a string or [undefined]. *)
Definition truthy (x : option jsstring) : bool :=
  match x with
  | Some (_ :: _) => true
  | _ => false
  end.

(** [x || d] for such a value. *)
Definition or_else (x : option jsstring) (d : jsstring) : jsstring :=
  match x with
  | Some (c :: s) => c :: s
  | _ => d
  end.

(** Lower-casing of the Basic Latin letters, the part of
    [String.prototype.toLowerCase] that does not depend on the Unicode
    tables. *)
Definition lowerBasicLatin (c : N) : N :=
  if ((65 <=? c) && (c <=? 90))%N then (c + 32)%N else c.

Definition basicLatin (c : N) : Prop := (c < 128)%N.

(** ** Promises, effects and the world of a call *)

(** How the promise of an awaited operation settles.  The handlers of
    [getAvatar] never look at the error, so a rejection carries none. *)
Inductive Settled (A : Type) : Type :=
| Fulfilled (a : A)
| Rejected.
Arguments Fulfilled {A} a.
Arguments Rejected {A}.

(** What a call does to the outside: the requests it issues with [fetch]
    and the bodies it reads with [blob()]. *)
Inductive Event : Type :=
| EFetch (url : jsstring)
| EBlob.

(** The [Response] of [fetch], as far as [getAvatar] looks at it:
    [resp.ok], [resp.headers.get('content-type')] ([None] for [null]) and
    [resp.blob()], whose promise may be rejected (the body stream fails or
    the timeout signal fires while it is read). *)
Record Response : Type := {
  ok : bool;
  content_type : option jsstring;
  body : Settled (list N)
}.

(** The [data] of a discovery answer. *)
Record SrvData : Type := {
  target : jsstring;
  port : Z
}.

(** The environment of a call.  [storage] is [messenger.storage.sync];
    [discovery] is the DNS as seen through a resolver endpoint; [network]
    answers a request, given the events that happened before it (so the
    same URL may be answered differently the second time): [Rejected] is a
    transport failure (network error, timeout, TLS, origin policy). *)
Record World : Type := {
  storage : gmap jsstring jsstring;
  discovery : option jsstring -> jsstring -> option SrvData;
  network : list Event -> jsstring -> Settled Response
}.

(** An asynchronous computation: it extends the trace and settles. *)
Definition Async (A : Type) : Type :=
  list Event -> Settled A * list Event.

#[export] Instance Async_ret : MRet Async :=
  fun A a tr => (Fulfilled a, tr).

#[export] Instance Async_bind : MBind Async :=
  fun A B k m tr =>
    match m tr with
    | (Fulfilled a, tr') => k a tr'
    | (Rejected, tr') => (Rejected, tr')
    end.

(** [try { x = await m } catch (err) { h }]. *)
Definition try_catch {A : Type} (m h : Async A) : Async A :=
  fun tr =>
    match m tr with
    | (Fulfilled a, tr') => (Fulfilled a, tr')
    | (Rejected, tr') => h tr'
    end.

(** [await fetch(url, { signal: AbortSignal.timeout(3000) })]. *)
Definition fetch (w : World) (url : jsstring) : Async Response :=
  fun tr => (network w tr url, tr ++ [EFetch url]).

(** [await resp.blob()]. *)
Definition blob (resp : Response) : Async (list N) :=
  fun tr => (body resp, tr ++ [EBlob]).

(** [await messenger.storage.sync.get(key)] followed by [?.key]: the
    stored string, or [None] for [undefined]. *)
Definition storage_get (w : World) (key : string) : option jsstring :=
  storage w !! lit key.

(** The requests of a trace, in order. *)
Definition fetches (tr : list Event) : list jsstring :=
  omap (fun e => match e with EFetch u => Some u | EBlob => None end) tr.

(** The body reads of a trace. *)
Definition blobs (tr : list Event) : nat :=
  length (omap (fun e => match e with EBlob => Some tt | EFetch _ => None end) tr).

(** ** The supported content types *)

(** An entry of [SUPPORTED_CONTENT_TYPES]; [tail] is [None] for [null]. *)
Record ContentTypeMeta : Type := {
  contentType : jsstring;
  signature : list N;
  tail : option (list N)
}.

Definition JPG_META : ContentTypeMeta :=
  {| contentType := lit "image/jpeg";
     signature := [255; 216]%N;
     tail := Some [255; 217]%N |}.

Definition PNG_META : ContentTypeMeta :=
  {| contentType := lit "image/png";
     signature := [137; 80; 78; 71; 13; 10; 26; 10]%N;
     tail := None |}.

(** The [Map] of the source; [Map.prototype.get] on a string key is
    [!!]. *)
Definition SUPPORTED_CONTENT_TYPES : gmap jsstring ContentTypeMeta :=
  {[ lit "image/jpg" := JPG_META; lit "image/png" := PNG_META ]}.

(** Modelled from the spec: [doSignaturesMatch] of [utils.js], which is
    not among the sources.  The first N bytes of the body equal the
    signature and, when a tail is defined, the final M bytes of the body
    equal the tail. *)
Definition doSignaturesMatch
    (bytes : list N) (signature : list N) (tail : option (list N)) : bool :=
  bool_decide (take (length signature) bytes = signature)
  && match tail with
     | None => true
     | Some t => bool_decide (drop (length bytes - length t) bytes = t)
     end.

(** Modelled from the spec: [queryAvatarService] of [dns.js], which is not
    among the sources.  A single lookup of the domain through the resolver
    endpoint that answers [{ target, port }] or nothing; its failures are
    not exceptions of the caller.  The domain is [None] when [getAvatar]
    hands it [undefined]. *)
Definition queryAvatarService
    (w : World) (domain : option jsstring) (dohServer : jsstring)
    : option SrvData :=
  discovery w domain dohServer.

(** The [File] that [getAvatar] builds. *)
Record File : Type := {
  file_bits : list N;
  file_name : jsstring;
  file_type : jsstring
}.

(** ** [getAvatar] *)

(** What [libravatar.js] takes from outside and this development leaves
    open: [String.prototype.toLowerCase] of the host, which follows the
    Unicode case tables; [sha256sum] and [buildSecureUrl] of [utils.js],
    [DEFAULT_HOST] and [DEFAULT_AVATAR] of [constants.js], which are not
    among the sources (pure functions and string constants). *)
Class Imports : Type := {
  toLowerCase : jsstring -> jsstring;
  sha256sum : jsstring -> jsstring;
  buildSecureUrl : jsstring -> Z -> jsstring;
  DEFAULT_HOST : jsstring;
  DEFAULT_AVATAR : jsstring
}.

Section Libravatar.

Context `{Imports}.

(** [email.trim().toLowerCase()]. *)
Definition normalized (email : jsstring) : jsstring :=
  toLowerCase (trim email).

(** [normalized.split('@')[1]]; [None] is [undefined]. *)
Definition domain (email : jsstring) : option jsstring :=
  split (chr "@") (normalized email) !! 1%nat.

(** Lines 52-58: [dnsData] stays [undefined] unless a resolver is
    configured and the lookup has an answer. *)
Definition dnsData (w : World) (email : jsstring) : option SrvData :=
  match storage_get w "dohServer" with
  | Some (c :: s) => queryAvatarService w (domain email) (c :: s)
  | _ => None
  end.

Definition contactsInstance (w : World) (email : jsstring) : jsstring :=
  match dnsData w email with
  | Some d => buildSecureUrl (target d) (port d)
  | None => DEFAULT_HOST
  end.

Definition emailHash (email : jsstring) : jsstring :=
  sha256sum (normalized email).

(** Lines 63-69. *)
Definition route (w : World) (email : jsstring) (size : N) : jsstring :=
  let route := lit "/avatar/" ++ emailHash email ++ lit "?s=" ++ toString size in
  let defaultAvatar := storage_get w "defaultAvatar" in
  if truthy defaultAvatar then
    route ++ lit "&d=" ++ template defaultAvatar
  else if bool_decide (defaultAvatar <> Some []) then
    route ++ lit "&d=" ++ DEFAULT_AVATAR
  else route.

(** [instanceOption?.preferredInstance || DEFAULT_HOST]. *)
Definition preferredInstance (w : World) : jsstring :=
  or_else (storage_get w "preferredInstance") DEFAULT_HOST.

(** [try { resp = await fetch(url, ...) } catch (err) { ... }]: the
    response, or [None] when the handler ran. *)
Definition attempt (w : World) (url : jsstring) : Async (option Response) :=
  try_catch (resp ← fetch w url; mret (Some resp)) (mret None).

(** [!resp || !resp.ok]. *)
Definition failed (resp : option Response) : bool :=
  match resp with
  | None => true
  | Some r => negb (ok r)
  end.

(** Lines 96-127: the rest of [getAvatar] once [resp] is a response. *)
Definition getAvatar_rest (email : jsstring) (resp : Response)
    : Async (option File) :=
  if negb (ok resp) then mret None
  else
    match content_type resp with
    | Some (c :: s) =>
        match SUPPORTED_CONTENT_TYPES !! (c :: s) with
        | None => mret None
        | Some contentTypeMeta =>
            bytes ← blob resp;
            if negb (doSignaturesMatch bytes (signature contentTypeMeta)
                       (tail contentTypeMeta))
            then mret None
            else
              mret (Some
                {| file_bits := bytes;
                   file_name :=
                     emailHash email ++ lit "."
                     ++ template (split (chr "/") (contentType contentTypeMeta)
                                  !! 1%nat);
                   file_type := contentType contentTypeMeta |})
        end
    | _ => mret None
    end.

(** Lines 49-95, then the rest.  [None] is the [null] result. *)
Definition getAvatar (w : World) (email : jsstring) (size : N)
    : Async (option File) :=
  let contactsInstance := contactsInstance w email in
  let route := route w email size in
  resp ← attempt w (contactsInstance ++ route);
  if failed resp then
    let preferredInstance := preferredInstance w in
    if bool_decide (preferredInstance = contactsInstance) then mret None
    else
      resp ← attempt w (preferredInstance ++ route);
      match resp with
      | None => mret None
      | Some resp => getAvatar_rest email resp
      end
  else
    match resp with
    | None => mret None
    | Some resp => getAvatar_rest email resp
    end.

End Libravatar.

(** ** The response that a call validates *)

Section Answered.

Context `{Imports}.

(** How a request settled is a failure for [getAvatar]: the transport
    failed or the status is not a success. *)
Definition unsuccessful (o : Settled Response) : Prop :=
  match o with
  | Fulfilled r => ok r = false
  | Rejected => True
  end.

(** The URL of attempt 1 and of attempt 2. *)
Definition firstUrl (w : World) (email : jsstring) (size : N) : jsstring :=
  contactsInstance w email ++ route w email size.

Definition secondUrl (w : World) (email : jsstring) (size : N) : jsstring :=
  preferredInstance w ++ route w email size.

(** What the fallback block does once attempt 1 has failed. *)
Definition fallback (w : World) (email : jsstring) (size : N)
    : Settled (option File) * list Event :=
  if bool_decide (preferredInstance w = contactsInstance w email)
  then (Fulfilled None, [EFetch (firstUrl w email size)])
  else
    match network w [EFetch (firstUrl w email size)] (secondUrl w email size) with
    | Fulfilled r =>
        getAvatar_rest email r
          [EFetch (firstUrl w email size); EFetch (secondUrl w email size)]
    | Rejected =>
        (Fulfilled None,
         [EFetch (firstUrl w email size); EFetch (secondUrl w email size)])
    end.

(** [Answered w email size r tr]: in the world [w] the call
    [getAvatar(email, size)] obtains the successful response [r], after
    the requests [tr]: from the resolved instance, or from the fallback
    instance once attempt 1 has failed. *)
Inductive Answered (w : World) (email : jsstring) (size : N)
    : Response -> list Event -> Prop :=
| Answered_first r :
    network w [] (firstUrl w email size) = Fulfilled r ->
    ok r = true ->
    Answered w email size r [EFetch (firstUrl w email size)]
| Answered_fallback r :
    unsuccessful (network w [] (firstUrl w email size)) ->
    preferredInstance w <> contactsInstance w email ->
    network w [EFetch (firstUrl w email size)] (secondUrl w email size)
      = Fulfilled r ->
    ok r = true ->
    Answered w email size r
      [EFetch (firstUrl w email size); EFetch (secondUrl w email size)].

End Answered.

(** ** Concrete hosts and worlds, for running the definitions *)

Module Fixture.

(** A host restricted to Basic Latin, with a transparent stand-in for
    the hash. *)
Definition imports : Imports :=
  {| toLowerCase := fun s => lowerBasicLatin <$> s;
     sha256sum := fun s => lit "sha256:" ++ s;
     buildSecureUrl := fun t p => lit "https://" ++ t ++ lit ":" ++ toString (Z.to_N p);
     DEFAULT_HOST := lit "https://default.example";
     DEFAULT_AVATAR := lit "identicon" |}.

Definition prefs (l : list (string * string)) : gmap jsstring jsstring :=
  list_to_map ((fun kv => (lit kv.1, lit kv.2)) <$> l).

(** Every request fails in transport. *)
Definition offline (l : list (string * string)) : World :=
  {| storage := prefs l;
     discovery := fun _ _ => None;
     network := fun _ _ => Rejected |}.

(** Every request is answered by [r]. *)
Definition serving (l : list (string * string)) (r : Response) : World :=
  {| storage := prefs l;
     discovery := fun _ _ => None;
     network := fun _ _ => Fulfilled r |}.

(** Only [host] answers, with [r]; any other host is unreachable. *)
Definition only (l : list (string * string)) (host : string) (r : Response)
    : World :=
  {| storage := prefs l;
     discovery := fun _ _ => None;
     network := fun _ url =>
       if bool_decide (take (length (lit host)) url = lit host)
       then Fulfilled r else Rejected |}.

(** The domain [example.org] has an instance of its own, which is
    unreachable; any other host answers with [r]. *)
Definition discovered (l : list (string * string)) (r : Response) : World :=
  {| storage := prefs l;
     discovery := fun domain _ =>
       if bool_decide (domain = Some (lit "example.org"))
       then Some {| target := lit "avatars.example.org"; port := 443 |}
       else None;
     network := fun _ url =>
       if bool_decide (take 27 url = lit "https://avatars.example.org")
       then Rejected else Fulfilled r |}.

Definition image (ct : string) (bytes : list N) : Response :=
  {| ok := true; content_type := Some (lit ct); body := Fulfilled bytes |}.

Definition png_bytes : list N :=
  [137; 80; 78; 71; 13; 10; 26; 10; 0; 0; 0; 13]%N.

Definition jpg_bytes : list N :=
  [255; 216; 255; 224; 0; 16; 255; 217]%N.

End Fixture.

(** * Properties *)

(** ** Running the definitions *)

Example trim_ex : trim (lit "  a b ") = lit "a b".
Proof. reflexivity. Qed.

Example trim_nbsp_ex : trim ([160; 97; 8232; 10]%N) = lit "a".
Proof. reflexivity. Qed.

Example split_ex : split (chr "@") (lit "a@b@c") = [lit "a"; lit "b"; lit "c"].
Proof. reflexivity. Qed.

Example split_empty_ex : split (chr "@") [] = [[]].
Proof. reflexivity. Qed.

Example toString_ex : toString 80 = lit "80".
Proof. reflexivity. Qed.

Example jpg_signature_ex :
  doSignaturesMatch Fixture.jpg_bytes (signature JPG_META) (tail JPG_META) = true.
Proof. reflexivity. Qed.

Example jpg_short_ex :
  doSignaturesMatch [255; 216]%N (signature JPG_META) (tail JPG_META) = false.
Proof. reflexivity. Qed.

Example table_jpg_ex : SUPPORTED_CONTENT_TYPES !! lit "image/jpg" = Some JPG_META.
Proof. reflexivity. Qed.

Example table_jpeg_ex : SUPPORTED_CONTENT_TYPES !! lit "image/jpeg" = None.
Proof. reflexivity. Qed.

Example getAvatar_png_ex :
  getAvatar (H := Fixture.imports)
    (Fixture.serving [] (Fixture.image "image/png" Fixture.png_bytes))
    (lit " Bob@Example.org") 64 []
  = (Fulfilled (Some {| file_bits := Fixture.png_bytes;
                        file_name := lit "sha256:bob@example.org.png";
                        file_type := lit "image/png" |}),
     [EFetch (lit "https://default.example/avatar/sha256:bob@example.org?s=64&d=identicon");
      EBlob]).
Proof. vm_compute. reflexivity. Qed.

Example isWhiteSpace_ex :
  isWhiteSpace <$> [8; 9; 13; 14; 32; 8200; 8203; 65279]%N
  = [false; true; true; false; true; true; false; true].
Proof. reflexivity. Qed.

Example domain_ex :
  domain (H := Fixture.imports) (lit " Bob@Example.ORG ") = Some (lit "example.org").
Proof. reflexivity. Qed.

Example getAvatar_discovered_ex :
  getAvatar (H := Fixture.imports)
    (Fixture.discovered [("dohServer", "https://dns.example/dns-query")]%string
       (Fixture.image "image/jpg" Fixture.jpg_bytes))
    (lit "Bob@Example.org") 64 []
  = (Fulfilled (Some {| file_bits := Fixture.jpg_bytes;
                        file_name := lit "sha256:bob@example.org.jpeg";
                        file_type := lit "image/jpeg" |}),
     [EFetch (lit "https://avatars.example.org:443/avatar/sha256:bob@example.org?s=64&d=identicon");
      EFetch (lit "https://default.example/avatar/sha256:bob@example.org?s=64&d=identicon");
      EBlob]).
Proof. vm_compute. reflexivity. Qed.

Example getAvatar_offline_ex :
  getAvatar (H := Fixture.imports)
    (Fixture.offline [("preferredInstance", "https://other.example"); ("defaultAvatar", "")]%string)
    (lit "bob@example.org") 64 []
  = (Fulfilled None,
     [EFetch (lit "https://default.example/avatar/sha256:bob@example.org?s=64");
      EFetch (lit "https://other.example/avatar/sha256:bob@example.org?s=64")]).
Proof. vm_compute. reflexivity. Qed.

(** ** How a call runs *)

Section Run.

Context `{Imports}.
Implicit Types (w : World) (email : jsstring) (size : N).

Lemma attempt_run w url tr :
  attempt w url tr
  = (Fulfilled match network w tr url with
               | Fulfilled r => Some r
               | Rejected => None
               end,
     tr ++ [EFetch url]).
Proof.
  unfold attempt, try_catch, fetch, mbind, mret, Async_bind, Async_ret.
  destruct (network w tr url); reflexivity.
Qed.

Lemma getAvatar_run w email size :
  getAvatar w email size []
  = match network w [] (firstUrl w email size) with
    | Fulfilled r =>
        if ok r then getAvatar_rest email r [EFetch (firstUrl w email size)]
        else fallback w email size
    | Rejected => fallback w email size
    end.
Proof.
  unfold getAvatar, fallback, firstUrl, secondUrl.
  unfold mbind at 1. unfold Async_bind at 1. rewrite attempt_run. simpl.
  destruct (network w [] _) as [r|]; simpl.
  - destruct (ok r); simpl; [reflexivity|].
    case_bool_decide; [reflexivity|].
    unfold mbind, Async_bind. rewrite attempt_run. simpl.
    destruct (network w _ _); reflexivity.
  - case_bool_decide; [reflexivity|].
    unfold mbind, Async_bind. rewrite attempt_run. simpl.
    destruct (network w _ _); reflexivity.
Qed.

Lemma getAvatar_rest_not_ok email r tr :
  ok r = false -> getAvatar_rest email r tr = (Fulfilled None, tr).
Proof. intros Hr. unfold getAvatar_rest. rewrite Hr. reflexivity. Qed.

Lemma fallback_unsuccessful w email size :
  preferredInstance w <> contactsInstance w email ->
  unsuccessful
    (network w [EFetch (firstUrl w email size)] (secondUrl w email size)) ->
  fallback w email size
  = (Fulfilled None,
     [EFetch (firstUrl w email size); EFetch (secondUrl w email size)]).
Proof.
  intros Hne Hu. unfold fallback. rewrite bool_decide_eq_false_2 by exact Hne.
  destruct (network w _ _) as [r|]; [|reflexivity].
  apply getAvatar_rest_not_ok. exact Hu.
Qed.

Lemma getAvatar_unsuccessful w email size :
  unsuccessful (network w [] (firstUrl w email size)) ->
  getAvatar w email size [] = fallback w email size.
Proof.
  intros Hu. rewrite getAvatar_run.
  destruct (network w [] _) as [r|]; [|reflexivity].
  simpl in Hu. rewrite Hu. reflexivity.
Qed.

(** An answered call goes on with the response and the requests made. *)
Lemma getAvatar_answered w email size r tr :
  Answered w email size r tr ->
  getAvatar w email size [] = getAvatar_rest email r tr.
Proof.
  intros [r1 Hnet Hok | r2 Hu Hne Hnet Hok].
  - rewrite getAvatar_run, Hnet, Hok. reflexivity.
  - rewrite getAvatar_unsuccessful by exact Hu.
    unfold fallback. rewrite bool_decide_eq_false_2 by exact Hne.
    rewrite Hnet. reflexivity.
Qed.

(** The rest of the function adds at most a body read to the trace. *)
Lemma getAvatar_rest_trace email r tr :
  (getAvatar_rest email r tr).2 = tr
  \/ (getAvatar_rest email r tr).2 = tr ++ [EBlob].
Proof.
  unfold getAvatar_rest.
  destruct (ok r); simpl; [|left; reflexivity].
  destruct (content_type r) as [[|c s]|]; try (left; reflexivity).
  destruct (SUPPORTED_CONTENT_TYPES !! (c :: s)) as [m|]; [|left; reflexivity].
  right. unfold mbind, Async_bind, blob.
  destruct (body r) as [b|]; [|reflexivity].
  destruct (doSignaturesMatch b _ _); reflexivity.
Qed.

Lemma fetches_app tr1 tr2 : fetches (tr1 ++ tr2) = fetches tr1 ++ fetches tr2.
Proof. unfold fetches. apply omap_app. Qed.

Lemma getAvatar_rest_fetches email r tr :
  fetches (getAvatar_rest email r tr).2 = fetches tr.
Proof.
  destruct (getAvatar_rest_trace email r tr) as [-> | ->]; [reflexivity|].
  rewrite fetches_app. simpl. apply app_nil_r.
Qed.

End Run.

(** ** The fetch-with-fallback controller *)

Section Controller.

Context `{Imports}.
Implicit Types (w : World) (email : jsstring) (size : N).

Lemma preferredInstance_unset w :
  truthy (storage_get w "preferredInstance") = false ->
  preferredInstance w = DEFAULT_HOST.
Proof.
  unfold preferredInstance.
  destruct (storage_get w "preferredInstance") as [[|c v]|];
    [reflexivity|discriminate|reflexivity].
Qed.

Lemma preferredInstance_set w v :
  storage_get w "preferredInstance" = Some v -> v <> [] ->
  preferredInstance w = v.
Proof.
  intros Hp Hv. unfold preferredInstance. rewrite Hp.
  destruct v; [contradiction|reflexivity].
Qed.

Lemma fallback_fetches w email size :
  fetches (fallback w email size).2
  = if bool_decide (preferredInstance w = contactsInstance w email)
    then [firstUrl w email size]
    else [firstUrl w email size; secondUrl w email size].
Proof.
  unfold fallback. case_bool_decide; [reflexivity|].
  destruct (network w _ _); [|reflexivity].
  apply getAvatar_rest_fetches.
Qed.

(** C1. A call issues at most two requests.  Attempt 1 goes to the
    resolved instance.  When it does not yield a success status, the
    fallback instance is the [preferredInstance] preference, or the
    default host when the preference is unset or empty; if it is the very
    string of the instance already tried the call returns [null] after
    that one request; otherwise exactly one more request goes to the
    fallback instance, and when that one fails too the call returns
    [null] with no third request. *)
Theorem getAvatar_at_most_two_fetches w email size :
  let run := getAvatar w email size [] in
  let url1 := firstUrl w email size in
  let url2 := secondUrl w email size in
  length (fetches run.2) <= 2
  /\ (~ unsuccessful (network w [] url1) -> fetches run.2 = [url1])
  /\ (truthy (storage_get w "preferredInstance") = false ->
      preferredInstance w = DEFAULT_HOST)
  /\ (forall v, storage_get w "preferredInstance" = Some v -> v <> [] ->
      preferredInstance w = v)
  /\ (unsuccessful (network w [] url1) ->
      (preferredInstance w = contactsInstance w email ->
         run = (Fulfilled None, [EFetch url1]))
      /\ (preferredInstance w <> contactsInstance w email ->
           fetches run.2 = [url1; url2]
           /\ (unsuccessful (network w [EFetch url1] url2) ->
                run = (Fulfilled None, [EFetch url1; EFetch url2])))).
Proof.
  intros run url1 url2. subst run url1 url2.
  split; [|split; [|split; [|split]]].
  - rewrite getAvatar_run.
    destruct (network w [] _) as [r|]; [destruct (ok r)|].
    + rewrite getAvatar_rest_fetches. simpl. lia.
    + rewrite fallback_fetches. case_bool_decide; simpl; lia.
    + rewrite fallback_fetches. case_bool_decide; simpl; lia.
  - intros Hs. rewrite getAvatar_run.
    destruct (network w [] _) as [r|]; simpl in Hs; [|tauto].
    destruct (ok r); [|congruence].
    apply getAvatar_rest_fetches.
  - apply preferredInstance_unset.
  - apply preferredInstance_set.
  - intros Hu. rewrite getAvatar_unsuccessful by exact Hu. split.
    + intros Heq. unfold fallback.
      rewrite bool_decide_eq_true_2 by exact Heq. reflexivity.
    + intros Hne. split.
      * rewrite fallback_fetches.
        rewrite bool_decide_eq_false_2 by exact Hne. reflexivity.
      * intros Hu2. apply fallback_unsuccessful; assumption.
Qed.

(** C8. When both requests fail in transport (network failure,
    timeout), the call is fulfilled with [null]: neither failure rejects
    the promise of [getAvatar]. *)
Theorem getAvatar_both_fetches_fail w email size :
  network w [] (firstUrl w email size) = Rejected ->
  network w [EFetch (firstUrl w email size)] (secondUrl w email size)
    = Rejected ->
  (getAvatar w email size []).1 = Fulfilled None.
Proof.
  intros H1 H2. rewrite getAvatar_run, H1. unfold fallback.
  case_bool_decide; [reflexivity|]. rewrite H2. reflexivity.
Qed.

End Controller.

Lemma getAvatar_both_fetches_fail_witness :
  (getAvatar (H := Fixture.imports)
     (Fixture.offline [("preferredInstance", "https://other.example")]%string)
     (lit "bob@example.org") 64 []).1 = Fulfilled None.
Proof.
  apply (getAvatar_both_fetches_fail (H := Fixture.imports)); reflexivity.
Defined.

(** ** The response validator *)

Section Validator.

Context `{Imports}.
Implicit Types (w : World) (email : jsstring) (size : N).
Implicit Types (r : Response) (tr : list Event) (b sig : list N).

Lemma take_length_prefix sig b : take (length sig) b = sig <-> sig `prefix_of` b.
Proof.
  split.
  - intros Ht. exists (drop (length sig) b).
    rewrite <- Ht at 1. symmetry. apply take_drop.
  - intros [k ->]. apply take_app_length.
Qed.

Lemma drop_length_suffix sig b :
  drop (length b - length sig) b = sig <-> sig `suffix_of` b.
Proof.
  split.
  - intros Hd. exists (take (length b - length sig) b).
    rewrite <- Hd at 2. symmetry. apply take_drop.
  - intros [k ->]. rewrite length_app.
    replace (length k + length sig - length sig) with (length k) by lia.
    apply drop_app_length.
Qed.

(** The matcher of the spec in terms of "begins with" and "ends with". *)
Lemma doSignaturesMatch_spec b sig (t : option (list N)) :
  doSignaturesMatch b sig t = true
  <-> sig `prefix_of` b
      /\ match t with Some t => t `suffix_of` b | None => True end.
Proof.
  unfold doSignaturesMatch. rewrite andb_true_iff, bool_decide_eq_true.
  rewrite take_length_prefix. destruct t as [t|].
  - rewrite bool_decide_eq_true, drop_length_suffix. reflexivity.
  - tauto.
Qed.

(** The table has the two keys [image/jpg] and [image/png] and [get] is an
    exact match on them. *)
Lemma SUPPORTED_CONTENT_TYPES_lookup (ct : jsstring) (m : ContentTypeMeta) :
  SUPPORTED_CONTENT_TYPES !! ct = Some m
  <-> (ct = lit "image/jpg" /\ m = JPG_META)
      \/ (ct = lit "image/png" /\ m = PNG_META).
Proof.
  unfold SUPPORTED_CONTENT_TYPES.
  rewrite lookup_insert_Some, lookup_singleton_Some. split.
  - intros [[<- <-] | [_ [<- <-]]]; auto.
  - intros [[-> ->] | [-> ->]]; [left; auto|right]. split; [|auto]. discriminate.
Qed.

Lemma SUPPORTED_CONTENT_TYPES_none (ct : jsstring) :
  ct <> lit "image/jpg" -> ct <> lit "image/png" ->
  SUPPORTED_CONTENT_TYPES !! ct = None.
Proof.
  intros Hj Hp. destruct (SUPPORTED_CONTENT_TYPES !! ct) as [m|] eqn:Hm; [|reflexivity].
  apply SUPPORTED_CONTENT_TYPES_lookup in Hm. destruct Hm as [[? _] | [? _]]; contradiction.
Qed.

Lemma keys_without_parameters :
  (chr ";" ∉ lit "image/jpg") /\ (chr ";" ∉ lit "image/png").
Proof. split; apply (bool_decide_unpack _); vm_compute; exact I. Qed.

(** The events of an answered call are requests. *)
Lemma Answered_blobs w email size r tr : Answered w email size r tr -> blobs tr = 0.
Proof. intros [? ? ? | ? ? ? ? ?]; reflexivity. Qed.

Lemma Answered_ok w email size r tr : Answered w email size r tr -> ok r = true.
Proof. intros [? ? ? | ? ? ? ? ?]; assumption. Qed.

(** A response of a type that is not in the table is dropped with its body
    unread. *)
Lemma getAvatar_rest_unsupported email r tr :
  match content_type r with
  | Some ct => SUPPORTED_CONTENT_TYPES !! ct = None
  | None => True
  end ->
  getAvatar_rest email r tr = (Fulfilled None, tr).
Proof.
  intros Hct. unfold getAvatar_rest. destruct (ok r); [|reflexivity]. simpl.
  destruct (content_type r) as [[|c s]|]; try reflexivity.
  rewrite Hct. reflexivity.
Qed.

(** A response of a supported type whose body is read. *)
Lemma getAvatar_rest_supported email r tr (ct : jsstring) m b :
  ok r = true ->
  content_type r = Some ct ->
  SUPPORTED_CONTENT_TYPES !! ct = Some m ->
  body r = Fulfilled b ->
  getAvatar_rest email r tr
  = (Fulfilled
       (if doSignaturesMatch b (signature m) (tail m)
        then Some {| file_bits := b;
                     file_name :=
                       emailHash email ++ lit "."
                       ++ template (split (chr "/") (contentType m) !! 1%nat);
                     file_type := contentType m |}
        else None),
     tr ++ [EBlob]).
Proof.
  intros Hok Hct Hm Hb. unfold getAvatar_rest. rewrite Hok, Hct. simpl.
  destruct ct as [|c s]; [discriminate Hm|]. rewrite Hm.
  unfold mbind, Async_bind, blob. rewrite Hb.
  destruct (doSignaturesMatch b _ _); reflexivity.
Qed.

(** C3. A successful response that declares [image/png], a type of the
    table, and whose body does not begin with the eight bytes of the PNG
    signature makes the call return [null]; the promise is fulfilled, not
    rejected. *)
Theorem getAvatar_png_bad_signature w email size r tr b :
  Answered w email size r tr ->
  content_type r = Some (lit "image/png") ->
  body r = Fulfilled b ->
  ~ [137; 80; 78; 71; 13; 10; 26; 10]%N `prefix_of` b ->
  is_Some (SUPPORTED_CONTENT_TYPES !! lit "image/png")
  /\ getAvatar w email size [] = (Fulfilled None, tr ++ [EBlob]).
Proof.
  intros Ha Hct Hb Hsig. split; [eexists; reflexivity|].
  rewrite (getAvatar_answered _ _ _ _ _ Ha).
  rewrite (getAvatar_rest_supported email r tr _ PNG_META b (Answered_ok _ _ _ _ _ Ha) Hct)
    by (reflexivity || exact Hb).
  destruct (doSignaturesMatch b _ _) eqn:Hm; [|reflexivity].
  apply doSignaturesMatch_spec in Hm. destruct Hm as [Hp _]. contradiction.
Qed.

(** C4. A successful response that declares [image/jpg] and whose body
    starts with [0xFF 0xD8] and ends with [0xFF 0xD9] is accepted: the
    call returns a file with the body, of type [image/jpeg], named by the
    address hash followed by [.jpeg]. *)
Theorem getAvatar_jpg_accepted w email size r tr b :
  Answered w email size r tr ->
  content_type r = Some (lit "image/jpg") ->
  body r = Fulfilled b ->
  [255; 216]%N `prefix_of` b ->
  [255; 217]%N `suffix_of` b ->
  getAvatar w email size []
  = (Fulfilled (Some {| file_bits := b;
                        file_name := emailHash email ++ lit ".jpeg";
                        file_type := lit "image/jpeg" |}),
     tr ++ [EBlob]).
Proof.
  intros Ha Hct Hb Hp Hs.
  rewrite (getAvatar_answered _ _ _ _ _ Ha).
  rewrite (getAvatar_rest_supported email r tr _ JPG_META b (Answered_ok _ _ _ _ _ Ha) Hct)
    by (reflexivity || exact Hb).
  replace (doSignaturesMatch b (signature JPG_META) (tail JPG_META)) with true
    by (symmetry; apply doSignaturesMatch_spec; split; assumption).
  reflexivity.
Qed.

(** C6. A successful response without a content-type header, or with a
    type that is not in the table ([text/html] is not), makes the call
    return [null] after the requests alone: the body is not read, so there
    is nothing to match a signature against, whatever the body would have
    been. *)
Theorem getAvatar_unsupported_type w email size r tr :
  Answered w email size r tr ->
  content_type r = None
  \/ (exists ct : jsstring,
        content_type r = Some ct /\ SUPPORTED_CONTENT_TYPES !! ct = None) ->
  SUPPORTED_CONTENT_TYPES !! lit "text/html" = None
  /\ getAvatar w email size [] = (Fulfilled None, tr)
  /\ blobs (getAvatar w email size []).2 = 0.
Proof.
  intros Ha Hct. split; [reflexivity|].
  assert (Hrun : getAvatar w email size [] = (Fulfilled None, tr)).
  { rewrite (getAvatar_answered _ _ _ _ _ Ha).
    apply getAvatar_rest_unsupported.
    destruct Hct as [-> | (ct & -> & Hnone)]; [exact I|exact Hnone]. }
  split; [exact Hrun|]. rewrite Hrun. apply (Answered_blobs _ _ _ _ _ Ha).
Qed.

(** C10. The lookup is an exact match of the declared content type
    against the two keys [image/jpg] and [image/png]: a successful
    response that declares the canonical [image/jpeg], or a type with
    parameters such as [image/png; charset=utf-8], makes the call return
    [null], whatever its body is. *)
Theorem getAvatar_exact_content_type w email size r tr (ct : jsstring) :
  Answered w email size r tr ->
  content_type r = Some ct ->
  ct = lit "image/jpeg" \/ chr ";" ∈ ct ->
  dom SUPPORTED_CONTENT_TYPES = {[ lit "image/jpg"; lit "image/png" ]}
  /\ (forall k : jsstring,
        is_Some (SUPPORTED_CONTENT_TYPES !! k)
        <-> k = lit "image/jpg" \/ k = lit "image/png")
  /\ getAvatar w email size [] = (Fulfilled None, tr).
Proof.
  intros Ha Hct Hform. split; [|split].
  - unfold SUPPORTED_CONTENT_TYPES. rewrite dom_insert_L, dom_singleton_L.
    reflexivity.
  - intros k. split.
    + intros [m Hm]. apply SUPPORTED_CONTENT_TYPES_lookup in Hm. tauto.
    + intros [-> | ->]; eexists; reflexivity.
  - rewrite (getAvatar_answered _ _ _ _ _ Ha).
    apply getAvatar_rest_unsupported. rewrite Hct.
    apply SUPPORTED_CONTENT_TYPES_none.
    + destruct Hform as [-> | Hin]; [discriminate|].
      intros ->. exact (proj1 keys_without_parameters Hin).
    + destruct Hform as [-> | Hin]; [discriminate|].
      intros ->. exact (proj2 keys_without_parameters Hin).
Qed.

End Validator.

Lemma getAvatar_png_bad_signature_witness :
  let w := Fixture.serving [] (Fixture.image "image/png" Fixture.jpg_bytes) in
  let email := lit "bob@example.org" in
  let tr := [EFetch (firstUrl (H := Fixture.imports) w email 64)] in
  Answered (H := Fixture.imports) w email 64
    (Fixture.image "image/png" Fixture.jpg_bytes) tr
  /\ is_Some (SUPPORTED_CONTENT_TYPES !! lit "image/png")
  /\ getAvatar (H := Fixture.imports) w email 64 []
     = (Fulfilled None, tr ++ [EBlob]).
Proof.
  intros w email tr.
  assert (Ha : Answered (H := Fixture.imports) w email 64
                 (Fixture.image "image/png" Fixture.jpg_bytes) tr).
  { apply (Answered_first (H := Fixture.imports)); reflexivity. }
  split; [exact Ha|].
  apply (getAvatar_png_bad_signature (H := Fixture.imports) w email 64
           (Fixture.image "image/png" Fixture.jpg_bytes) tr Fixture.jpg_bytes Ha).
  - reflexivity.
  - reflexivity.
  - intros [k Hk]. discriminate Hk.
Defined.

Lemma getAvatar_jpg_accepted_witness :
  let r := Fixture.image "image/jpg" Fixture.jpg_bytes in
  let w := Fixture.only [("preferredInstance", "https://other.example")]%string
             "https://other.example" r in
  let email := lit "bob@example.org" in
  let tr := [EFetch (firstUrl (H := Fixture.imports) w email 64);
             EFetch (secondUrl (H := Fixture.imports) w email 64)] in
  Answered (H := Fixture.imports) w email 64 r tr
  /\ getAvatar (H := Fixture.imports) w email 64 []
     = (Fulfilled (Some {| file_bits := Fixture.jpg_bytes;
                           file_name := lit "sha256:bob@example.org.jpeg";
                           file_type := lit "image/jpeg" |}),
        tr ++ [EBlob]).
Proof.
  intros r w email tr.
  assert (Ha : Answered (H := Fixture.imports) w email 64 r tr).
  { apply (Answered_fallback (H := Fixture.imports)).
    - exact I.
    - discriminate.
    - reflexivity.
    - reflexivity. }
  split; [exact Ha|].
  apply (getAvatar_jpg_accepted (H := Fixture.imports) w email 64 r tr
           Fixture.jpg_bytes Ha).
  - reflexivity.
  - reflexivity.
  - exists [255; 224; 0; 16; 255; 217]%N. reflexivity.
  - exists [255; 216; 255; 224; 0; 16]%N. reflexivity.
Defined.

Lemma getAvatar_unsupported_type_witness :
  let r := {| ok := true; content_type := Some (lit "text/html");
              body := Rejected |} in
  let w := Fixture.serving [] r in
  let email := lit "bob@example.org" in
  let tr := [EFetch (firstUrl (H := Fixture.imports) w email 64)] in
  Answered (H := Fixture.imports) w email 64 r tr
  /\ SUPPORTED_CONTENT_TYPES !! lit "text/html" = None
  /\ getAvatar (H := Fixture.imports) w email 64 [] = (Fulfilled None, tr)
  /\ blobs (getAvatar (H := Fixture.imports) w email 64 []).2 = 0.
Proof.
  intros r w email tr.
  assert (Ha : Answered (H := Fixture.imports) w email 64 r tr).
  { apply (Answered_first (H := Fixture.imports)); reflexivity. }
  split; [exact Ha|].
  apply (getAvatar_unsupported_type (H := Fixture.imports) w email 64 r tr Ha).
  right. exists (lit "text/html"). split; reflexivity.
Defined.

Lemma getAvatar_exact_content_type_witness :
  let r := Fixture.image "image/png; charset=utf-8" Fixture.png_bytes in
  let w := Fixture.serving [] r in
  let email := lit "bob@example.org" in
  let tr := [EFetch (firstUrl (H := Fixture.imports) w email 64)] in
  Answered (H := Fixture.imports) w email 64 r tr
  /\ dom SUPPORTED_CONTENT_TYPES = {[ lit "image/jpg"; lit "image/png" ]}
  /\ (forall k : jsstring,
        is_Some (SUPPORTED_CONTENT_TYPES !! k)
        <-> k = lit "image/jpg" \/ k = lit "image/png")
  /\ getAvatar (H := Fixture.imports) w email 64 [] = (Fulfilled None, tr).
Proof.
  intros r w email tr.
  assert (Ha : Answered (H := Fixture.imports) w email 64 r tr).
  { apply (Answered_first (H := Fixture.imports)); reflexivity. }
  split; [exact Ha|].
  apply (getAvatar_exact_content_type (H := Fixture.imports) w email 64 r tr
           (lit "image/png; charset=utf-8") Ha).
  - reflexivity.
  - right. apply (bool_decide_unpack _). vm_compute. exact I.
Defined.

(** ** The address normalizer: [trim] and [split] *)

Section Strings.

Implicit Types (s t l r ws : jsstring) (sep c : N).

Lemma trimStart_whitespace_app ws s :
  whitespace ws -> trimStart (ws ++ s) = trimStart s.
Proof.
  induction 1 as [|c ws Hc _ IH]; [reflexivity|].
  simpl. rewrite Hc. exact IH.
Qed.

Lemma trimStart_app s t :
  trimStart (s ++ t)
  = match trimStart s with
    | [] => trimStart t
    | _ :: _ => trimStart s ++ t
    end.
Proof.
  induction s as [|c s IH]; simpl.
  - destruct (trimStart t); reflexivity.
  - destruct (isWhiteSpace c); [exact IH|reflexivity].
Qed.

Lemma trimStart_split s :
  exists ws, s = ws ++ trimStart s /\ whitespace ws.
Proof.
  induction s as [|c s (ws & Hs & Hws)]; simpl.
  - exists []. split; [reflexivity|constructor].
  - destruct (isWhiteSpace c) eqn:Hc.
    + exists (c :: ws). split; [simpl; congruence|constructor; assumption].
    + exists []. split; [reflexivity|constructor].
Qed.

Lemma trimStart_clean s : starts_clean (trimStart s).
Proof.
  induction s as [|c s IH]; simpl; [exact I|].
  destruct (isWhiteSpace c) eqn:Hc; [exact IH|exact Hc].
Qed.

Lemma whitespace_rev ws : whitespace ws -> whitespace (rev ws).
Proof. apply List.Forall_rev. Qed.

Lemma trimEnd_app_whitespace s ws :
  whitespace ws -> trimEnd (s ++ ws) = trimEnd s.
Proof.
  intros Hws. unfold trimEnd. rewrite rev_app_distr.
  rewrite trimStart_whitespace_app by (apply whitespace_rev; exact Hws).
  reflexivity.
Qed.

Lemma trimEnd_split s :
  exists ws, s = trimEnd s ++ ws /\ whitespace ws.
Proof.
  unfold trimEnd. destruct (trimStart_split (rev s)) as (ws & Hs & Hws).
  exists (rev ws). split; [|apply whitespace_rev; exact Hws].
  rewrite <- rev_app_distr, <- Hs. symmetry. apply rev_involutive.
Qed.

Lemma trimEnd_clean s : starts_clean (rev (trimEnd s)).
Proof. unfold trimEnd. rewrite rev_involutive. apply trimStart_clean. Qed.

(** [trim] removes white space at both ends, and nothing else. *)
Lemma trim_split s :
  exists ws1 ws2,
    s = ws1 ++ trim s ++ ws2 /\ whitespace ws1 /\ whitespace ws2
    /\ starts_clean (trim s) /\ starts_clean (rev (trim s)).
Proof.
  destruct (trimStart_split s) as (ws1 & Hs1 & Hws1).
  destruct (trimEnd_split (trimStart s)) as (ws2 & Hs2 & Hws2).
  exists ws1, ws2. unfold trim. rewrite <- Hs2.
  split; [exact Hs1|]. split; [exact Hws1|]. split; [exact Hws2|].
  split; [|apply trimEnd_clean].
  pose proof (trimStart_clean s) as Hc. rewrite Hs2 in Hc.
  destruct (trimEnd (trimStart s)); [exact I|exact Hc].
Qed.

(** White space around an address does not change what [trim] gives. *)
Lemma trim_pad ws1 s ws2 :
  whitespace ws1 -> whitespace ws2 -> trim (ws1 ++ s ++ ws2) = trim s.
Proof.
  intros H1 H2. unfold trim.
  rewrite trimStart_whitespace_app by exact H1. rewrite trimStart_app.
  destruct (trimStart s) as [|c t] eqn:Hs.
  - rewrite <- (app_nil_r ws2), trimStart_whitespace_app by exact H2.
    reflexivity.
  - apply trimEnd_app_whitespace. exact H2.
Qed.

Lemma split_first sep l r :
  sep ∉ l -> split sep (l ++ sep :: r) = l :: split sep r.
Proof.
  induction l as [|c l IH]; intros Hl; simpl.
  - rewrite N.eqb_refl. reflexivity.
  - apply not_elem_of_cons in Hl. destruct Hl as [Hc Hl].
    rewrite (proj2 (N.eqb_neq c sep)) by congruence.
    rewrite (IH Hl). reflexivity.
Qed.

Lemma split_none sep s : sep ∉ s -> split sep s = [s].
Proof.
  induction s as [|c s IH]; intros Hs; simpl; [reflexivity|].
  apply not_elem_of_cons in Hs. destruct Hs as [Hc Hs].
  rewrite (proj2 (N.eqb_neq c sep)) by congruence.
  rewrite (IH Hs). reflexivity.
Qed.

(** The first piece of [split] is the text before the first separator, or
    the whole string when there is none. *)
Lemma split_head sep s :
  exists d ps,
    split sep s = d :: ps /\ (sep ∉ d)
    /\ (s = d \/ exists rest, s = d ++ sep :: rest).
Proof.
  induction s as [|c s (d & ps & Hsp & Hd & Hs)]; simpl.
  - exists [], []. split; [reflexivity|]. split; [apply not_elem_of_nil|].
    left. reflexivity.
  - destruct (c =? sep)%N eqn:Hc.
    + apply N.eqb_eq in Hc. subst c.
      exists [], (split sep s). split; [reflexivity|].
      split; [apply not_elem_of_nil|]. right. exists s. reflexivity.
    + apply N.eqb_neq in Hc. rewrite Hsp.
      exists (c :: d), ps. split; [reflexivity|].
      split; [apply not_elem_of_cons; split; [congruence|exact Hd]|].
      destruct Hs as [-> | (rest & ->)]; [left; reflexivity|].
      right. exists rest. reflexivity.
Qed.

End Strings.

(** ** Instance resolver, request builder and address normalizer *)

Section Pipeline.

Context `{Imports}.
Implicit Types (w : World) (email : jsstring) (size : N).

Lemma getAvatar_rest_rejected email r tr :
  (getAvatar_rest email r tr).1 = Rejected -> ok r = true /\ body r = Rejected.
Proof.
  unfold getAvatar_rest. destruct (ok r); simpl; [|discriminate].
  destruct (content_type r) as [[|c s]|]; try discriminate.
  destruct (SUPPORTED_CONTENT_TYPES !! (c :: s)); [|discriminate].
  unfold mbind, Async_bind, blob. destruct (body r) as [b|]; [|auto].
  destruct (doSignaturesMatch b _ _); discriminate.
Qed.

(** The promise of [getAvatar] is rejected only when reading the body of
    the response it validates is. *)
Lemma getAvatar_rejected w email size :
  (getAvatar w email size []).1 = Rejected ->
  exists r tr, Answered w email size r tr /\ body r = Rejected.
Proof.
  rewrite getAvatar_run.
  destruct (network w [] (firstUrl w email size)) as [r1|] eqn:H1.
  - destruct (ok r1) eqn:Hok1.
    + intros Hrej. apply getAvatar_rest_rejected in Hrej.
      exists r1, [EFetch (firstUrl w email size)].
      split; [apply Answered_first; assumption|apply Hrej].
    + unfold fallback. case_bool_decide as Hp; [discriminate|].
      destruct (network w _ (secondUrl w email size)) as [r2|] eqn:H2;
        [|discriminate].
      intros Hrej. apply getAvatar_rest_rejected in Hrej.
      exists r2, [EFetch (firstUrl w email size); EFetch (secondUrl w email size)].
      split; [|apply Hrej].
      apply Answered_fallback; [rewrite H1; exact Hok1|exact Hp|exact H2|apply Hrej].
  - unfold fallback. case_bool_decide as Hp; [discriminate|].
    destruct (network w _ (secondUrl w email size)) as [r2|] eqn:H2;
      [|discriminate].
    intros Hrej. apply getAvatar_rest_rejected in Hrej.
    exists r2, [EFetch (firstUrl w email size); EFetch (secondUrl w email size)].
    split; [|apply Hrej].
    apply Answered_fallback; [rewrite H1; exact I|exact Hp|exact H2|apply Hrej].
Qed.

(** The first event of a call is the request to the resolved instance. *)
Lemma getAvatar_first_fetch w email size :
  head (getAvatar w email size []).2 = Some (EFetch (firstUrl w email size)).
Proof.
  rewrite getAvatar_run.
  assert (Hrest : forall r tr e, head tr = Some e ->
            head (getAvatar_rest email r tr).2 = Some e).
  { intros r tr e He.
    destruct (getAvatar_rest_trace email r tr) as [-> | ->]; [exact He|].
    destruct tr; [discriminate|exact He]. }
  assert (Hfb : head (fallback w email size).2
                = Some (EFetch (firstUrl w email size))).
  { unfold fallback. case_bool_decide; [reflexivity|].
    destruct (network w _ _); [apply Hrest|]; reflexivity. }
  destruct (network w [] _) as [r|]; [destruct (ok r)|]; try exact Hfb.
  apply Hrest. reflexivity.
Qed.

(** C2. With no resolver configured (the [dohServer] preference unset or
    empty), or when the lookup has no answer (a negative answer or a
    failed lookup, which the lookup reports alike), the resolved instance
    is the default host and the call requests the avatar there.  Nothing
    in the resolution rejects the promise of [getAvatar]: a rejection
    comes from reading the body of a validated response only. *)
Theorem contactsInstance_degrades w email size :
  truthy (storage_get w "dohServer") = false
  \/ (exists dohServer : jsstring,
        storage_get w "dohServer" = Some dohServer
        /\ queryAvatarService w (domain email) dohServer = None) ->
  contactsInstance w email = DEFAULT_HOST
  /\ head (getAvatar w email size []).2
     = Some (EFetch (DEFAULT_HOST ++ route w email size))
  /\ ((getAvatar w email size []).1 = Rejected ->
      exists r tr, Answered w email size r tr /\ body r = Rejected).
Proof.
  intros Hres.
  assert (Hci : contactsInstance w email = DEFAULT_HOST).
  { unfold contactsInstance, dnsData.
    destruct Hres as [Hno | (server & Hs & Hq)].
    - destruct (storage_get w "dohServer") as [[|c s]|];
        [reflexivity|discriminate Hno|reflexivity].
    - rewrite Hs. destruct server as [|c s]; [reflexivity|].
      rewrite Hq. reflexivity. }
  split; [exact Hci|]. split; [|apply getAvatar_rejected].
  rewrite getAvatar_first_fetch. unfold firstUrl. rewrite Hci. reflexivity.
Qed.

(** The default-placeholder preference decides the end of the route. *)
Lemma route_cases w email size :
  route w email size
  = lit "/avatar/" ++ emailHash email ++ lit "?s=" ++ toString size
    ++ match storage_get w "defaultAvatar" with
       | None => lit "&d=" ++ DEFAULT_AVATAR
       | Some [] => []
       | Some (c :: v) => lit "&d=" ++ c :: v
       end.
Proof.
  unfold route.
  destruct (storage_get w "defaultAvatar") as [[|c v]|]; cbn [truthy template].
  - rewrite bool_decide_eq_false_2 by (intros Hne; apply Hne; reflexivity).
    rewrite app_nil_r. reflexivity.
  - rewrite <- !app_assoc. reflexivity.
  - rewrite bool_decide_eq_true_2 by discriminate.
    rewrite <- !app_assoc. reflexivity.
Qed.

(** C5. The route is [/avatar/<hash>?s=<size>] followed by the placeholder
    directive: [&d=] and the system default when the preference is unset,
    nothing when it is the empty string, [&d=] and the value as it is
    otherwise.  For "Alice@Example.com", size 80, no resolver configured,
    the preference unset and the system default "identicon", the path is
    [/avatar/<hash of "alice@example.com">?s=80&d=identicon], requested
    from the default host. *)
Theorem route_default_placeholder w email size :
  (forall s : jsstring, Forall basicLatin s ->
     toLowerCase s = lowerBasicLatin <$> s) ->
  route w email size
  = lit "/avatar/" ++ emailHash email ++ lit "?s=" ++ toString size
    ++ match storage_get w "defaultAvatar" with
       | None => lit "&d=" ++ DEFAULT_AVATAR
       | Some [] => []
       | Some (c :: v) => lit "&d=" ++ c :: v
       end
  /\ (DEFAULT_AVATAR = lit "identicon" ->
      storage_get w "defaultAvatar" = None ->
      storage_get w "dohServer" = None ->
      route w (lit "Alice@Example.com") 80
      = lit "/avatar/" ++ sha256sum (lit "alice@example.com")
        ++ lit "?s=80&d=identicon"
      /\ head (getAvatar w (lit "Alice@Example.com") 80 []).2
         = Some (EFetch (DEFAULT_HOST ++ lit "/avatar/"
                         ++ sha256sum (lit "alice@example.com")
                         ++ lit "?s=80&d=identicon"))).
Proof.
  intros Hlower. split; [apply route_cases|].
  intros Hdef Havatar Hdoh.
  assert (Hroute : route w (lit "Alice@Example.com") 80
                   = lit "/avatar/" ++ sha256sum (lit "alice@example.com")
                     ++ lit "?s=80&d=identicon").
  { rewrite route_cases, Havatar, Hdef. unfold emailHash, normalized.
    replace (trim (lit "Alice@Example.com")) with (lit "Alice@Example.com")
      by reflexivity.
    rewrite Hlower
      by (apply Forall_forall; intros c Hc; apply list_elem_of_In in Hc;
          unfold basicLatin; vm_compute in Hc; intuition (subst; reflexivity)).
    reflexivity. }
  split; [exact Hroute|].
  rewrite getAvatar_first_fetch. unfold firstUrl. rewrite Hroute.
  unfold contactsInstance, dnsData. rewrite Hdoh. reflexivity.
Qed.

(** C7. Two addresses that are equal after trimming and lower-casing have
    the same hash and the same route, and so has an address with white
    space added around it: the identifier does not depend on the case or
    on the surrounding white space of the input. *)
Theorem emailHash_invariant w (e1 e2 ws1 ws2 : jsstring) size :
  toLowerCase (trim e1) = toLowerCase (trim e2) ->
  whitespace ws1 -> whitespace ws2 ->
  emailHash e1 = emailHash e2
  /\ route w e1 size = route w e2 size
  /\ emailHash (ws1 ++ e1 ++ ws2) = emailHash e2
  /\ route w (ws1 ++ e1 ++ ws2) size = route w e2 size.
Proof.
  intros Heq H1 H2.
  assert (Hh : emailHash e1 = emailHash e2).
  { unfold emailHash, normalized. rewrite Heq. reflexivity. }
  assert (Hp : emailHash (ws1 ++ e1 ++ ws2) = emailHash e2).
  { unfold emailHash, normalized. rewrite trim_pad by assumption.
    rewrite Heq. reflexivity. }
  split; [exact Hh|]. split; [|split; [exact Hp|]].
  - rewrite !route_cases, Hh. reflexivity.
  - rewrite !route_cases, Hp. reflexivity.
Qed.

(** Corrected C9. The normalizer trims the white space around the address
    and lower-cases the rest; the domain is the second piece of the
    address split at every '@': the text between the first '@' and the
    next one, which is everything after the first '@' when there is no
    other.  Without an '@' the domain is [undefined]; the call does not
    stop there: it requests the avatar from the resolved instance as for
    any address, from the default host when no resolver is configured. *)
Theorem domain_second_piece w email size :
  (exists ws1 core ws2 : jsstring,
      email = ws1 ++ core ++ ws2 /\ whitespace ws1 /\ whitespace ws2
      /\ starts_clean core /\ starts_clean (rev core)
      /\ normalized email = toLowerCase core)
  /\ (forall l r : jsstring,
        normalized email = l ++ chr "@" :: r -> chr "@" ∉ l ->
        exists d : jsstring,
          domain email = Some d /\ (chr "@" ∉ d)
          /\ (r = d \/ exists rest, r = d ++ chr "@" :: rest))
  /\ (chr "@" ∉ normalized email ->
      domain email = None
      /\ head (getAvatar w email size []).2
         = Some (EFetch (contactsInstance w email ++ route w email size))
      /\ (truthy (storage_get w "dohServer") = false ->
          contactsInstance w email = DEFAULT_HOST)).
Proof.
  split; [|split].
  - destruct (trim_split email) as (ws1 & ws2 & He & H1 & H2 & Hc1 & Hc2).
    exists ws1, (trim email), ws2. repeat (split; [assumption|]). reflexivity.
  - intros l r Hn Hl. unfold domain. rewrite Hn, split_first by exact Hl.
    destruct (split_head (chr "@") r) as (d & ps & Hsp & Hd & Hr).
    exists d. rewrite Hsp. split; [reflexivity|]. split; assumption.
  - intros Hno. split; [|split].
    + unfold domain. rewrite split_none by exact Hno. reflexivity.
    + apply getAvatar_first_fetch.
    + intros Hdoh. unfold contactsInstance, dnsData.
      destruct (storage_get w "dohServer") as [[|c s]|];
        [reflexivity|discriminate Hdoh|reflexivity].
Qed.

(** Under the Basic Latin part of [toLowerCase], lower-casing commutes
    with trimming: no letter is white space. *)
Lemma trimStart_lower (s : jsstring) :
  trimStart (lowerBasicLatin <$> s) = lowerBasicLatin <$> trimStart s.
Proof.
  assert (Hws : forall c, isWhiteSpace (lowerBasicLatin c) = isWhiteSpace c).
  { intros c. unfold lowerBasicLatin.
    destruct ((65 <=? c)%N && (c <=? 90)%N) eqn:Hc; [|reflexivity].
    apply andb_true_iff in Hc. destruct Hc as [Hlo Hhi].
    apply N.leb_le in Hlo, Hhi. unfold isWhiteSpace.
    repeat match goal with
           | |- context [(?a <=? ?b)%N] => destruct (N.leb_spec a b); try lia
           | |- context [(?a =? ?b)%N] => destruct (N.eqb_spec a b); try lia
           end; reflexivity. }
  induction s as [|c s IH]; [reflexivity|].
  cbn [fmap list_fmap trimStart]. rewrite Hws.
  destruct (isWhiteSpace c); [exact IH|reflexivity].
Qed.

Lemma fmap_rev (f : N -> N) (s : jsstring) : rev (f <$> s) = f <$> rev s.
Proof.
  induction s as [|c s IH]; [reflexivity|].
  cbn [fmap list_fmap rev]. rewrite fmap_app. cbn [fmap list_fmap] in *.
  rewrite IH. reflexivity.
Qed.

Lemma trim_lower (s : jsstring) :
  trim (lowerBasicLatin <$> s) = lowerBasicLatin <$> trim s.
Proof.
  unfold trim, trimEnd.
  rewrite trimStart_lower, fmap_rev, trimStart_lower, fmap_rev. reflexivity.
Qed.

(** On a host whose [toLowerCase] lower-cases Basic Latin letter by
    letter, two Basic Latin addresses that differ in the case of their
    letters only are normalized to the same address. *)
Lemma normalized_case_insensitive (e1 e2 : jsstring) :
  (forall s : jsstring, Forall basicLatin s ->
     toLowerCase s = lowerBasicLatin <$> s) ->
  Forall basicLatin e1 -> Forall basicLatin e2 ->
  lowerBasicLatin <$> e1 = lowerBasicLatin <$> e2 ->
  normalized e1 = normalized e2.
Proof.
  intros Hlower H1 H2 Heq.
  assert (Htrim : forall e : jsstring, Forall basicLatin e ->
            Forall basicLatin (trim e)).
  { intros e He. destruct (trim_split e) as (ws1 & ws2 & Hs & _).
    rewrite Hs in He. apply Forall_app in He. destruct He as [_ He].
    apply Forall_app in He. apply He. }
  unfold normalized. rewrite !Hlower by (apply Htrim; assumption).
  rewrite <- !trim_lower, Heq. reflexivity.
Qed.

End Pipeline.

Lemma contactsInstance_degrades_witness :
  let w := Fixture.serving [("dohServer", "https://dns.example/dns-query")]%string
             (Fixture.image "image/png" Fixture.png_bytes) in
  let email := lit "bob@example.org" in
  contactsInstance (H := Fixture.imports) w email = lit "https://default.example"
  /\ head (getAvatar (H := Fixture.imports) w email 64 []).2
     = Some (EFetch (lit "https://default.example"
                     ++ route (H := Fixture.imports) w email 64))
  /\ ((getAvatar (H := Fixture.imports) w email 64 []).1 = Rejected ->
      exists r tr, Answered (H := Fixture.imports) w email 64 r tr
                   /\ body r = Rejected).
Proof.
  intros w email.
  apply (contactsInstance_degrades (H := Fixture.imports) w email 64).
  right. exists (lit "https://dns.example/dns-query"). split; reflexivity.
Defined.

Lemma route_default_placeholder_witness :
  let w := Fixture.offline [] in
  route (H := Fixture.imports) w (lit "Alice@Example.com") 80
  = lit "/avatar/sha256:alice@example.com?s=80&d=identicon"
  /\ head (getAvatar (H := Fixture.imports) w (lit "Alice@Example.com") 80 []).2
     = Some (EFetch (lit "https://default.example/avatar/sha256:alice@example.com?s=80&d=identicon")).
Proof.
  intros w.
  apply (route_default_placeholder (H := Fixture.imports) w
           (lit "Alice@Example.com") 80 (fun s _ => eq_refl));
    reflexivity.
Defined.

Lemma emailHash_invariant_witness :
  let w := Fixture.offline [] in
  let e1 := lit "ALICE@example.COM" in
  let e2 := lit "  Alice@Example.com " in
  emailHash (H := Fixture.imports) e1 = emailHash (H := Fixture.imports) e2
  /\ route (H := Fixture.imports) w e1 80 = route (H := Fixture.imports) w e2 80
  /\ emailHash (H := Fixture.imports) ([9; 32]%N ++ e1 ++ [13; 10]%N)
     = emailHash (H := Fixture.imports) e2
  /\ route (H := Fixture.imports) w ([9; 32]%N ++ e1 ++ [13; 10]%N) 80
     = route (H := Fixture.imports) w e2 80.
Proof.
  intros w e1 e2.
  apply (emailHash_invariant (H := Fixture.imports) w e1 e2 [9; 32]%N [13; 10]%N 80).
  - reflexivity.
  - repeat constructor.
  - repeat constructor.
Defined.

(** C9 as stated fails: in "a@b@c" the text after the first '@' is "b@c"
    but the domain is "b"; and the address "nobody", without an '@', is
    not turned into "no avatar": the call requests its avatar from the
    default host and returns the image served there. *)
Lemma domain_rest_after_first_at_counterexample :
  domain (H := Fixture.imports) (lit "a@b@c") = Some (lit "b")
  /\ domain (H := Fixture.imports) (lit "a@b@c") <> Some (lit "b@c")
  /\ domain (H := Fixture.imports) (lit "nobody") = None
  /\ getAvatar (H := Fixture.imports)
       (Fixture.serving [] (Fixture.image "image/png" Fixture.png_bytes))
       (lit "nobody") 64 []
     = (Fulfilled (Some {| file_bits := Fixture.png_bytes;
                           file_name := lit "sha256:nobody.png";
                           file_type := lit "image/png" |}),
        [EFetch (lit "https://default.example/avatar/sha256:nobody?s=64&d=identicon");
         EBlob]).
Proof.
  split; [reflexivity|]. split; [discriminate|]. split; reflexivity.
Qed.

(** * Further properties of [getAvatar] *)

Section Outcomes.

Context `{Imports}.
Implicit Types (w : World) (email : jsstring) (size : N).
Implicit Types (r : Response) (tr : list Event) (f : File).

(** The ways a call can go once attempt 1 has failed. *)
Lemma getAvatar_cases_failed w email size :
  unsuccessful (network w [] (firstUrl w email size)) ->
  (exists r tr,
      Answered w email size r tr
      /\ getAvatar w email size [] = getAvatar_rest email r tr)
  \/ (preferredInstance w = contactsInstance w email
      /\ getAvatar w email size []
         = (Fulfilled None, [EFetch (firstUrl w email size)]))
  \/ (preferredInstance w <> contactsInstance w email
      /\ unsuccessful
           (network w [EFetch (firstUrl w email size)] (secondUrl w email size))
      /\ getAvatar w email size []
         = (Fulfilled None,
            [EFetch (firstUrl w email size); EFetch (secondUrl w email size)])).
Proof.
  intros Hu. rewrite getAvatar_unsuccessful by exact Hu.
  destruct (decide (preferredInstance w = contactsInstance w email)) as [Hp|Hp].
  - right. left. split; [exact Hp|]. unfold fallback.
    rewrite bool_decide_eq_true_2 by exact Hp. reflexivity.
  - destruct (network w [EFetch (firstUrl w email size)] (secondUrl w email size))
      as [r2|] eqn:H2.
    + destruct (ok r2) eqn:Hok2.
      * left. eexists r2, _. split.
        -- apply Answered_fallback; eassumption.
        -- unfold fallback. rewrite bool_decide_eq_false_2 by exact Hp.
           rewrite H2. reflexivity.
      * right. right. split; [exact Hp|]. split; [exact Hok2|].
        apply fallback_unsuccessful; [exact Hp|]. rewrite H2. exact Hok2.
    + right. right. split; [exact Hp|]. split; [exact I|].
      apply fallback_unsuccessful; [exact Hp|]. rewrite H2. exact I.
Qed.

(** The three ways a call can go: a successful response is validated, or
    the fallback is the instance already tried, or both requests fail. *)
Lemma getAvatar_cases w email size :
  (exists r tr,
      Answered w email size r tr
      /\ getAvatar w email size [] = getAvatar_rest email r tr)
  \/ (unsuccessful (network w [] (firstUrl w email size))
      /\ preferredInstance w = contactsInstance w email
      /\ getAvatar w email size []
         = (Fulfilled None, [EFetch (firstUrl w email size)]))
  \/ (unsuccessful (network w [] (firstUrl w email size))
      /\ preferredInstance w <> contactsInstance w email
      /\ unsuccessful
           (network w [EFetch (firstUrl w email size)] (secondUrl w email size))
      /\ getAvatar w email size []
         = (Fulfilled None,
            [EFetch (firstUrl w email size); EFetch (secondUrl w email size)])).
Proof.
  assert (Hdec : unsuccessful (network w [] (firstUrl w email size))
                 \/ exists r1, network w [] (firstUrl w email size) = Fulfilled r1
                               /\ ok r1 = true).
  { destruct (network w [] (firstUrl w email size)) as [r1|]; [|left; exact I].
    destruct (ok r1) eqn:Hok1; [right; eauto|left; exact Hok1]. }
  destruct Hdec as [Hu | (r1 & H1 & Hok1)].
  - destruct (getAvatar_cases_failed w email size Hu) as [Ha | [Hs | Hb]];
      [left; exact Ha|right; left; tauto|right; right; tauto].
  - left. exists r1, [EFetch (firstUrl w email size)].
    assert (Ha : Answered w email size r1 [EFetch (firstUrl w email size)])
      by (apply Answered_first; assumption).
    split; [exact Ha|]. apply getAvatar_answered. exact Ha.
Qed.

(** What the rest of the function returns when it returns a file. *)
Lemma getAvatar_rest_file email r tr f :
  (getAvatar_rest email r tr).1 = Fulfilled (Some f) ->
  exists (ct : jsstring) m,
    content_type r = Some ct
    /\ SUPPORTED_CONTENT_TYPES !! ct = Some m
    /\ body r = Fulfilled (file_bits f)
    /\ doSignaturesMatch (file_bits f) (signature m) (tail m) = true
    /\ file_type f = contentType m
    /\ file_name f
       = emailHash email ++ lit "."
         ++ template (split (chr "/") (contentType m) !! 1%nat)
    /\ (getAvatar_rest email r tr).2 = tr ++ [EBlob].
Proof.
  unfold getAvatar_rest. destruct (ok r); cbn [negb]; [|discriminate].
  destruct (content_type r) as [[|c s]|]; try discriminate.
  destruct (SUPPORTED_CONTENT_TYPES !! (c :: s)) as [m|] eqn:Hm; [|discriminate].
  unfold mbind, Async_bind, blob. destruct (body r) as [b|]; [|discriminate].
  destruct (doSignaturesMatch b (signature m) (tail m)) eqn:Hsig;
    cbn [negb]; [|discriminate].
  intros Hf. injection Hf as <-. exists (c :: s), m. cbn [file_bits file_type file_name].
  repeat (split; [reflexivity || assumption|]). reflexivity.
Qed.

(** X1. Every file that [getAvatar] returns comes from a successful
    response whose declared type is a key of the table and whose body,
    read in full, carries the signature (and the tail, when there is one)
    of that entry; the file has that body, the normalized type of the
    entry, and the name [<hash>.jpeg] or [<hash>.png]. *)
Theorem getAvatar_file_sound w email size f :
  (getAvatar w email size []).1 = Fulfilled (Some f) ->
  exists r tr (ct : jsstring) m,
    Answered w email size r tr
    /\ content_type r = Some ct
    /\ SUPPORTED_CONTENT_TYPES !! ct = Some m
    /\ body r = Fulfilled (file_bits f)
    /\ signature m `prefix_of` file_bits f
    /\ match tail m with
       | Some t => t `suffix_of` file_bits f
       | None => True
       end
    /\ ((file_type f = lit "image/jpeg"
         /\ file_name f = emailHash email ++ lit ".jpeg")
        \/ (file_type f = lit "image/png"
            /\ file_name f = emailHash email ++ lit ".png")).
Proof.
  intros Hf.
  destruct (getAvatar_cases w email size)
    as [(r & tr & Ha & Hrun) | [(_ & _ & Hrun) | (_ & _ & _ & Hrun)]];
    rewrite Hrun in Hf; try discriminate Hf.
  apply getAvatar_rest_file in Hf.
  destruct Hf as (ct & m & Hct & Hm & Hb & Hsig & Hty & Hname & _).
  exists r, tr, ct, m. apply doSignaturesMatch_spec in Hsig.
  destruct Hsig as [Hpre Hsuf].
  repeat (split; [assumption|]).
  apply SUPPORTED_CONTENT_TYPES_lookup in Hm.
  destruct Hm as [[_ ->] | [_ ->]]; [left|right]; split; assumption.
Qed.

(** X2. A successful response that declares [image/png] and whose body
    begins with the PNG signature is accepted whatever follows the
    signature (the entry has no tail): the file has the body, the type
    [image/png] and the name [<hash>.png]. *)
Theorem getAvatar_png_accepted w email size r tr (b : list N) :
  Answered w email size r tr ->
  content_type r = Some (lit "image/png") ->
  body r = Fulfilled b ->
  [137; 80; 78; 71; 13; 10; 26; 10]%N `prefix_of` b ->
  getAvatar w email size []
  = (Fulfilled (Some {| file_bits := b;
                        file_name := emailHash email ++ lit ".png";
                        file_type := lit "image/png" |}),
     tr ++ [EBlob]).
Proof.
  intros Ha Hct Hb Hp.
  rewrite (getAvatar_answered _ _ _ _ _ Ha).
  rewrite (getAvatar_rest_supported email r tr _ PNG_META b (Answered_ok _ _ _ _ _ Ha) Hct)
    by (reflexivity || exact Hb).
  replace (doSignaturesMatch b (signature PNG_META) (tail PNG_META)) with true
    by (symmetry; apply doSignaturesMatch_spec; split; [exact Hp|exact I]).
  reflexivity.
Qed.

(** X3. A successful response that declares [image/jpg] is dropped, after
    its body is read, when the body does not start with [0xFF 0xD8] or
    does not end with [0xFF 0xD9] (a truncated image, say). *)
Theorem getAvatar_jpg_rejected w email size r tr (b : list N) :
  Answered w email size r tr ->
  content_type r = Some (lit "image/jpg") ->
  body r = Fulfilled b ->
  ~ [255; 216]%N `prefix_of` b \/ ~ [255; 217]%N `suffix_of` b ->
  getAvatar w email size [] = (Fulfilled None, tr ++ [EBlob]).
Proof.
  intros Ha Hct Hb Hbad.
  rewrite (getAvatar_answered _ _ _ _ _ Ha).
  rewrite (getAvatar_rest_supported email r tr _ JPG_META b (Answered_ok _ _ _ _ _ Ha) Hct)
    by (reflexivity || exact Hb).
  destruct (doSignaturesMatch b _ _) eqn:Hm; [|reflexivity].
  apply doSignaturesMatch_spec in Hm. destruct Hm as [Hp Hs].
  destruct Hbad as [Hn | Hn]; contradiction.
Qed.

Lemma doSignaturesMatch_short (b : list N) m :
  m = JPG_META \/ m = PNG_META ->
  length b < length (signature m) + length (default [] (tail m)) ->
  doSignaturesMatch b (signature m) (tail m) = false.
Proof.
  intros Hm Hlen.
  destruct (doSignaturesMatch b (signature m) (tail m)) eqn:Hsig; [|reflexivity].
  apply doSignaturesMatch_spec in Hsig. destruct Hsig as [[k Hk] Hsuf].
  destruct Hm as [-> | ->]; cbn [signature tail JPG_META PNG_META default] in *.
  - destruct Hsuf as [k' Hk']. rewrite Hk in Hk', Hlen. clear Hk.
    destruct k as [|x [|y k]]; simpl in Hlen; try lia.
    + destruct k' as [|? [|? [|? ?]]]; cbn [app] in Hk'; discriminate Hk'.
    + destruct k' as [|? [|? [|? [|? ?]]]]; cbn [app] in Hk'; discriminate Hk'.
  - subst b. simpl in Hlen. lia.
Qed.

(** X4. A body too short to hold the signature and the tail of its
    declared type is never accepted: fewer than 8 bytes for [image/png],
    fewer than 4 for [image/jpg], the empty body in particular. *)
Theorem getAvatar_short_body w email size r tr (ct : jsstring) m (b : list N) :
  Answered w email size r tr ->
  content_type r = Some ct ->
  SUPPORTED_CONTENT_TYPES !! ct = Some m ->
  body r = Fulfilled b ->
  length b < length (signature m) + length (default [] (tail m)) ->
  getAvatar w email size [] = (Fulfilled None, tr ++ [EBlob]).
Proof.
  intros Ha Hct Hm Hb Hlen.
  rewrite (getAvatar_answered _ _ _ _ _ Ha).
  rewrite (getAvatar_rest_supported email r tr ct m b (Answered_ok _ _ _ _ _ Ha) Hct Hm Hb).
  rewrite doSignaturesMatch_short; [reflexivity| |exact Hlen].
  apply SUPPORTED_CONTENT_TYPES_lookup in Hm. tauto.
Qed.



(** X6. What a call does to the outside is always: the request to the
    resolved instance; then, only if that one failed, at most one request
    to a different URL; then at most one body read.  A file is returned
    only after a body read. *)
Theorem getAvatar_trace_shape w email size :
  let run := getAvatar w email size [] in
  let url1 := firstUrl w email size in
  let url2 := secondUrl w email size in
  (run.2 = [EFetch url1] \/ run.2 = [EFetch url1; EBlob]
   \/ ((run.2 = [EFetch url1; EFetch url2]
        \/ run.2 = [EFetch url1; EFetch url2; EBlob])
       /\ url2 <> url1 /\ unsuccessful (network w [] url1)))
  /\ (forall f, run.1 = Fulfilled (Some f) -> last run.2 = Some EBlob).
Proof.
  intros run url1 url2. subst run url1 url2. split.
  - destruct (getAvatar_cases w email size)
      as [(r & tr & Ha & Hrun) | [(_ & _ & Hrun) | (Hu & Hp & _ & Hrun)]];
      rewrite Hrun.
    + assert (Hne : forall a b c : jsstring, a <> b -> a ++ c <> b ++ c)
        by (intros a b c Hab Heq; apply Hab; exact (app_inv_tail _ _ _ Heq)).
      destruct Ha as [r1 _ _ | r2 Hu Hp _ _];
        match goal with
        | |- context [getAvatar_rest email ?r ?t] =>
            destruct (getAvatar_rest_trace email r t) as [-> | ->]
        end;
        cbn [app]; auto 10.
      * right. right. split; [auto|]. split; [apply Hne; exact Hp|exact Hu].
      * right. right. split; [auto|]. split; [apply Hne; exact Hp|exact Hu].
    + auto.
    + right. right. split; [auto|]. split; [|exact Hu].
      unfold firstUrl, secondUrl. intros Heq. apply Hp.
      exact (app_inv_tail _ _ _ Heq).
  - intros f Hf.
    destruct (getAvatar_cases w email size)
      as [(r & tr & Ha & Hrun) | [(_ & _ & Hrun) | (_ & _ & _ & Hrun)]];
      rewrite Hrun in Hf |- *; try discriminate Hf.
    apply getAvatar_rest_file in Hf.
    destruct Hf as (ct & m & _ & _ & _ & _ & _ & _ & ->). apply last_snoc.
Qed.

End Outcomes.

Section Settings.

Context `{Imports}.
Implicit Types (w : World) (email : jsstring) (size : N).

(** A call sees its world through the resolved instance, the route, the
    fallback instance and the network. *)
Lemma getAvatar_ext w w' email size :
  contactsInstance w' email = contactsInstance w email ->
  route w' email size = route w email size ->
  preferredInstance w' = preferredInstance w ->
  (forall tr url, network w' tr url = network w tr url) ->
  getAvatar w' email size [] = getAvatar w email size [].
Proof.
  intros Hc Hr Hp Hn. rewrite !getAvatar_run.
  unfold fallback, firstUrl, secondUrl. rewrite Hc, Hr, Hp, !Hn. reflexivity.
Qed.

(** X7. With no discovered instance (no resolver configured, or no
    answer) and no preferred instance, a call makes exactly one request,
    to the default host, whatever the network does; when that request
    fails the call returns [null] at once. *)
Theorem getAvatar_default_settings_one_request w email size :
  dnsData w email = None ->
  truthy (storage_get w "preferredInstance") = false ->
  fetches (getAvatar w email size []).2 = [DEFAULT_HOST ++ route w email size]
  /\ (unsuccessful (network w [] (DEFAULT_HOST ++ route w email size)) ->
      getAvatar w email size []
      = (Fulfilled None, [EFetch (DEFAULT_HOST ++ route w email size)])).
Proof.
  intros Hdns Hpref.
  assert (Hc : contactsInstance w email = DEFAULT_HOST)
    by (unfold contactsInstance; rewrite Hdns; reflexivity).
  assert (Hp : preferredInstance w = contactsInstance w email)
    by (rewrite Hc; apply preferredInstance_unset; exact Hpref).
  assert (Hurl : firstUrl w email size = DEFAULT_HOST ++ route w email size)
    by (unfold firstUrl; rewrite Hc; reflexivity).
  assert (Hfb : fallback w email size
                = (Fulfilled None, [EFetch (firstUrl w email size)]))
    by (unfold fallback; rewrite bool_decide_eq_true_2 by exact Hp; reflexivity).
  rewrite <- Hurl. split.
  - rewrite getAvatar_run.
    destruct (network w [] _) as [r|]; [destruct (ok r)|];
      rewrite ?Hfb, ?getAvatar_rest_fetches; reflexivity.
  - intros Hu. rewrite getAvatar_unsuccessful by exact Hu. exact Hfb.
Qed.

(** X8. Without a resolver (the [dohServer] preference unset or empty)
    the discovery is not consulted: two worlds with the same preferences
    and the same network give the same outcome and the same requests,
    whatever the DNS would answer. *)
Theorem getAvatar_without_resolver_ignores_discovery w w' email size :
  truthy (storage_get w "dohServer") = false ->
  storage w' = storage w ->
  (forall tr url, network w' tr url = network w tr url) ->
  getAvatar w' email size [] = getAvatar w email size [].
Proof.
  intros Hdoh Hst Hn.
  assert (Hget : forall key, storage_get w' key = storage_get w key)
    by (intros key; unfold storage_get; rewrite Hst; reflexivity).
  apply getAvatar_ext; [| | |exact Hn].
  - unfold contactsInstance, dnsData. rewrite Hget.
    destruct (storage_get w "dohServer") as [[|c s]|];
      [reflexivity|discriminate Hdoh|reflexivity].
  - unfold route. rewrite Hget. reflexivity.
  - unfold preferredInstance. rewrite Hget. reflexivity.
Qed.

(** X9. When attempt 1 succeeds the [preferredInstance] preference plays
    no part: changing it (and nothing else) changes neither the outcome
    nor the requests. *)
Theorem getAvatar_first_success_ignores_preference w w' email size r :
  network w [] (firstUrl w email size) = Fulfilled r ->
  ok r = true ->
  (forall k : jsstring, k <> lit "preferredInstance" ->
     storage w' !! k = storage w !! k) ->
  (forall d s, discovery w' d s = discovery w d s) ->
  (forall tr url, network w' tr url = network w tr url) ->
  getAvatar w' email size [] = getAvatar w email size [].
Proof.
  intros Hnet Hok Hst Hd Hn.
  assert (Hurl : firstUrl w' email size = firstUrl w email size).
  { unfold firstUrl, contactsInstance, dnsData, route, queryAvatarService,
      storage_get.
    rewrite !Hst by discriminate.
    destruct (storage w !! lit "dohServer") as [[|c s]|]; rewrite ?Hd; reflexivity. }
  rewrite !getAvatar_run, Hurl, Hn, Hnet, Hok. reflexivity.
Qed.

(** X10. With a resolver configured and a discovery answer, attempt 1
    goes to the instance built from the answer's target and port; when it
    fails and the fallback instance is another one, the second and last
    request goes to the fallback instance. *)
Theorem getAvatar_discovered_instance w email size (dohServer : jsstring) d :
  storage_get w "dohServer" = Some dohServer ->
  dohServer <> [] ->
  queryAvatarService w (domain email) dohServer = Some d ->
  contactsInstance w email = buildSecureUrl (target d) (port d)
  /\ head (getAvatar w email size []).2
     = Some (EFetch (buildSecureUrl (target d) (port d) ++ route w email size))
  /\ (unsuccessful
        (network w [] (buildSecureUrl (target d) (port d) ++ route w email size)) ->
      preferredInstance w <> buildSecureUrl (target d) (port d) ->
      fetches (getAvatar w email size []).2
      = [buildSecureUrl (target d) (port d) ++ route w email size;
         preferredInstance w ++ route w email size]).
Proof.
  intros Hdoh Hne Hq.
  assert (Hc : contactsInstance w email = buildSecureUrl (target d) (port d)).
  { unfold contactsInstance, dnsData. rewrite Hdoh.
    destruct dohServer as [|c s]; [contradiction|]. rewrite Hq. reflexivity. }
  split; [exact Hc|]. split.
  - rewrite getAvatar_first_fetch. unfold firstUrl. rewrite Hc. reflexivity.
  - intros Hu Hp. rewrite <- Hc in Hu, Hp |- *.
    rewrite getAvatar_unsuccessful by exact Hu.
    rewrite fallback_fetches, bool_decide_eq_false_2 by exact Hp. reflexivity.
Qed.

End Settings.

Section Addresses.

Context `{Imports}.
Implicit Types (w : World) (email s l d : jsstring) (size : N).

Lemma trimStart_id s : starts_clean s -> trimStart s = s.
Proof. destruct s as [|c s]; [reflexivity|]. simpl. intros ->. reflexivity. Qed.

Lemma trim_idempotent s : trim (trim s) = trim s.
Proof.
  destruct (trim_split s) as (_ & _ & _ & _ & _ & Hstart & Hend).
  unfold trim at 1. rewrite trimStart_id by exact Hstart.
  unfold trimEnd. rewrite trimStart_id by exact Hend. apply rev_involutive.
Qed.

Lemma lowerBasicLatin_idempotent (c : N) :
  lowerBasicLatin (lowerBasicLatin c) = lowerBasicLatin c.
Proof.
  unfold lowerBasicLatin.
  destruct ((65 <=? c)%N && (c <=? 90)%N) eqn:Hc; [|rewrite Hc; reflexivity].
  apply andb_true_iff in Hc. destruct Hc as [Hlo Hhi].
  apply N.leb_le in Hlo, Hhi.
  replace (c + 32 <=? 90)%N with false by (symmetry; apply N.leb_gt; lia).
  rewrite andb_false_r. reflexivity.
Qed.

Lemma lowerBasicLatin_basicLatin s :
  Forall basicLatin s -> Forall basicLatin (lowerBasicLatin <$> s).
Proof.
  intros Hs. apply Forall_fmap. eapply Forall_impl; [exact Hs|].
  intros c Hc. unfold basicLatin, lowerBasicLatin in *. cbn.
  destruct ((65 <=? c)%N && (c <=? 90)%N) eqn:Hr; [|exact Hc].
  apply andb_true_iff in Hr. destruct Hr as [_ Hhi]. apply N.leb_le in Hhi. lia.
Qed.

Lemma trim_basicLatin s : Forall basicLatin s -> Forall basicLatin (trim s).
Proof.
  intros Hs. destruct (trim_split s) as (ws1 & ws2 & Heq & _).
  rewrite Heq in Hs. apply Forall_app in Hs. destruct Hs as [_ Hs].
  apply Forall_app in Hs. apply Hs.
Qed.

Lemma lowerBasicLatin_at s :
  chr "@" ∉ s -> chr "@" ∉ lowerBasicLatin <$> s.
Proof.
  intros Hs Hin. apply list_elem_of_fmap in Hin. destruct Hin as (c & Hc & Hin).
  apply Hs. replace (chr "@") with c; [exact Hin|].
  unfold lowerBasicLatin in Hc.
  destruct ((65 <=? c)%N && (c <=? 90)%N) eqn:Hr; [|symmetry; exact Hc].
  apply andb_true_iff in Hr. destruct Hr as [Hlo _]. apply N.leb_le in Hlo.
  change (chr "@") with 64%N in Hc. lia.
Qed.

(** X11. On a host whose [toLowerCase] lower-cases Basic Latin letter by
    letter, normalizing is idempotent on Basic Latin addresses: an address
    that was normalized already has the same hash and the same route as
    the address it came from. *)
Theorem normalized_idempotent w email size :
  (forall s : jsstring, Forall basicLatin s ->
     toLowerCase s = lowerBasicLatin <$> s) ->
  Forall basicLatin email ->
  normalized (normalized email) = normalized email
  /\ emailHash (normalized email) = emailHash email
  /\ route w (normalized email) size = route w email size.
Proof.
  intros Hlower He.
  assert (Hn : normalized (normalized email) = normalized email).
  { unfold normalized. rewrite (Hlower (trim email)) by (apply trim_basicLatin; exact He).
    rewrite trim_lower, trim_idempotent.
    rewrite Hlower
      by (apply lowerBasicLatin_basicLatin, trim_basicLatin; exact He).
    rewrite <- list_fmap_compose. apply list_fmap_ext.
    intros i c _. apply lowerBasicLatin_idempotent. }
  split; [exact Hn|].
  assert (Hh : emailHash (normalized email) = emailHash email)
    by (unfold emailHash; rewrite Hn; reflexivity).
  split; [exact Hh|]. rewrite !route_cases, Hh. reflexivity.
Qed.

(** X12. On such a host, for a Basic Latin address that once trimmed is
    [local@domain] with a single '@', the domain is the lower-cased text
    after the '@', and that is the domain the discovery is asked about
    when a resolver is configured. *)
Theorem domain_of_address w email l d :
  (forall s : jsstring, Forall basicLatin s ->
     toLowerCase s = lowerBasicLatin <$> s) ->
  Forall basicLatin email ->
  trim email = l ++ chr "@" :: d ->
  chr "@" ∉ l -> chr "@" ∉ d ->
  domain email = Some (lowerBasicLatin <$> d)
  /\ (forall dohServer : jsstring,
        storage_get w "dohServer" = Some dohServer -> dohServer <> [] ->
        dnsData w email
        = queryAvatarService w (Some (lowerBasicLatin <$> d)) dohServer).
Proof.
  intros Hlower He Htrim Hl Hd.
  assert (Hdom : domain email = Some (lowerBasicLatin <$> d)).
  { unfold domain, normalized.
    rewrite Hlower by (apply trim_basicLatin; exact He).
    rewrite Htrim, fmap_app, fmap_cons.
    change (lowerBasicLatin (chr "@")) with (chr "@").
    rewrite split_first by (apply lowerBasicLatin_at; exact Hl).
    rewrite split_none by (apply lowerBasicLatin_at; exact Hd). reflexivity. }
  split; [exact Hdom|].
  intros dohServer Hdoh Hne. unfold dnsData. rewrite Hdoh, Hdom.
  destruct dohServer; [contradiction|reflexivity].
Qed.

End Addresses.

(** ** The further properties on concrete worlds *)

Lemma getAvatar_file_sound_witness :
  let w := Fixture.serving [] (Fixture.image "image/png" Fixture.png_bytes) in
  let email := lit "bob@example.org" in
  let f := {| file_bits := Fixture.png_bytes;
              file_name := lit "sha256:bob@example.org.png";
              file_type := lit "image/png" |} in
  (getAvatar (H := Fixture.imports) w email 64 []).1 = Fulfilled (Some f)
  /\ exists r tr (ct : jsstring) m,
       Answered (H := Fixture.imports) w email 64 r tr
       /\ content_type r = Some ct
       /\ SUPPORTED_CONTENT_TYPES !! ct = Some m
       /\ body r = Fulfilled (file_bits f)
       /\ signature m `prefix_of` file_bits f
       /\ match tail m with
          | Some t => t `suffix_of` file_bits f
          | None => True
          end
       /\ ((file_type f = lit "image/jpeg"
            /\ file_name f = emailHash (H := Fixture.imports) email ++ lit ".jpeg")
           \/ (file_type f = lit "image/png"
               /\ file_name f = emailHash (H := Fixture.imports) email ++ lit ".png")).
Proof.
  intros w email f.
  assert (Hf : (getAvatar (H := Fixture.imports) w email 64 []).1
               = Fulfilled (Some f)) by reflexivity.
  split; [exact Hf|].
  exact (getAvatar_file_sound (H := Fixture.imports) w email 64 f Hf).
Defined.

Lemma getAvatar_png_accepted_witness :
  let r := Fixture.image "image/png" Fixture.png_bytes in
  let w := Fixture.serving [] r in
  let email := lit "bob@example.org" in
  let tr := [EFetch (firstUrl (H := Fixture.imports) w email 64)] in
  Answered (H := Fixture.imports) w email 64 r tr
  /\ getAvatar (H := Fixture.imports) w email 64 []
     = (Fulfilled (Some {| file_bits := Fixture.png_bytes;
                           file_name := lit "sha256:bob@example.org.png";
                           file_type := lit "image/png" |}),
        tr ++ [EBlob]).
Proof.
  intros r w email tr.
  assert (Ha : Answered (H := Fixture.imports) w email 64 r tr)
    by (apply (Answered_first (H := Fixture.imports)); reflexivity).
  split; [exact Ha|].
  apply (getAvatar_png_accepted (H := Fixture.imports) w email 64 r tr
           Fixture.png_bytes Ha).
  - reflexivity.
  - reflexivity.
  - exists [0; 0; 0; 13]%N. reflexivity.
Defined.

Lemma getAvatar_jpg_rejected_witness :
  let r := Fixture.image "image/jpg" [255; 216; 255; 224; 0; 16]%N in
  let w := Fixture.serving [] r in
  let email := lit "bob@example.org" in
  let tr := [EFetch (firstUrl (H := Fixture.imports) w email 64)] in
  Answered (H := Fixture.imports) w email 64 r tr
  /\ getAvatar (H := Fixture.imports) w email 64 []
     = (Fulfilled None, tr ++ [EBlob]).
Proof.
  intros r w email tr.
  assert (Ha : Answered (H := Fixture.imports) w email 64 r tr)
    by (apply (Answered_first (H := Fixture.imports)); reflexivity).
  split; [exact Ha|].
  apply (getAvatar_jpg_rejected (H := Fixture.imports) w email 64 r tr
           [255; 216; 255; 224; 0; 16]%N Ha).
  - reflexivity.
  - reflexivity.
  - right. apply (bool_decide_unpack _). vm_compute. exact I.
Defined.

Lemma getAvatar_short_body_witness :
  let r := Fixture.image "image/jpg" [255; 216; 217]%N in
  let w := Fixture.serving [] r in
  let email := lit "bob@example.org" in
  let tr := [EFetch (firstUrl (H := Fixture.imports) w email 64)] in
  Answered (H := Fixture.imports) w email 64 r tr
  /\ getAvatar (H := Fixture.imports) w email 64 []
     = (Fulfilled None, tr ++ [EBlob]).
Proof.
  intros r w email tr.
  assert (Ha : Answered (H := Fixture.imports) w email 64 r tr)
    by (apply (Answered_first (H := Fixture.imports)); reflexivity).
  split; [exact Ha|].
  apply (getAvatar_short_body (H := Fixture.imports) w email 64 r tr
           (lit "image/jpg") JPG_META [255; 216; 217]%N Ha).
  - reflexivity.
  - reflexivity.
  - reflexivity.
  - simpl. lia.
Defined.

Lemma getAvatar_default_settings_one_request_witness :
  let w := Fixture.offline [] in
  let email := lit "bob@example.org" in
  let url := lit "https://default.example/avatar/sha256:bob@example.org?s=64&d=identicon" in
  fetches (getAvatar (H := Fixture.imports) w email 64 []).2 = [url]
  /\ (unsuccessful (network w [] url) ->
      getAvatar (H := Fixture.imports) w email 64 []
      = (Fulfilled None, [EFetch url])).
Proof.
  intros w email url.
  apply (getAvatar_default_settings_one_request (H := Fixture.imports) w email 64);
    reflexivity.
Defined.

Lemma getAvatar_without_resolver_ignores_discovery_witness :
  let r := Fixture.image "image/png" Fixture.png_bytes in
  let w := Fixture.serving [] r in
  let w' := {| storage := Fixture.prefs [];
               discovery := fun _ _ =>
                 Some {| target := lit "avatars.example.org"; port := 443 |};
               network := fun _ _ => Fulfilled r |} in
  getAvatar (H := Fixture.imports) w' (lit "bob@example.org") 64 []
  = getAvatar (H := Fixture.imports) w (lit "bob@example.org") 64 [].
Proof.
  intros r w w'.
  apply (getAvatar_without_resolver_ignores_discovery (H := Fixture.imports) w w').
  - reflexivity.
  - reflexivity.
  - intros tr url. reflexivity.
Defined.

Lemma getAvatar_first_success_ignores_preference_witness :
  let r := Fixture.image "image/png" Fixture.png_bytes in
  let w := Fixture.serving [] r in
  let w' := Fixture.serving [("preferredInstance", "https://other.example")]%string r in
  getAvatar (H := Fixture.imports) w' (lit "bob@example.org") 64 []
  = getAvatar (H := Fixture.imports) w (lit "bob@example.org") 64 [].
Proof.
  intros r w w'.
  apply (getAvatar_first_success_ignores_preference (H := Fixture.imports)
           w w' (lit "bob@example.org") 64 r).
  - reflexivity.
  - reflexivity.
  - intros k Hk.
    change (storage w') with
      (<[lit "preferredInstance" := lit "https://other.example"]>
         (∅ : gmap (list N) (list N))).
    change (storage w) with (∅ : gmap (list N) (list N)).
    apply lookup_insert_ne. congruence.
  - intros d s. reflexivity.
  - intros tr url. reflexivity.
Defined.

Lemma getAvatar_discovered_instance_witness :
  let w := Fixture.discovered [("dohServer", "https://dns.example/dns-query");
                               ("preferredInstance", "https://other.example")]%string
             (Fixture.image "image/png" Fixture.png_bytes) in
  let email := lit "bob@example.org" in
  let instance := lit "https://avatars.example.org:443" in
  contactsInstance (H := Fixture.imports) w email = instance
  /\ head (getAvatar (H := Fixture.imports) w email 64 []).2
     = Some (EFetch (instance ++ route (H := Fixture.imports) w email 64))
  /\ (unsuccessful
        (network w [] (instance ++ route (H := Fixture.imports) w email 64)) ->
      preferredInstance (H := Fixture.imports) w <> instance ->
      fetches (getAvatar (H := Fixture.imports) w email 64 []).2
      = [instance ++ route (H := Fixture.imports) w email 64;
         preferredInstance (H := Fixture.imports) w
         ++ route (H := Fixture.imports) w email 64]).
Proof.
  intros w email instance.
  apply (getAvatar_discovered_instance (H := Fixture.imports) w email 64
           (lit "https://dns.example/dns-query")
           {| target := lit "avatars.example.org"; port := 443 |}).
  - reflexivity.
  - discriminate.
  - reflexivity.
Defined.

Lemma normalized_idempotent_witness :
  let w := Fixture.offline [] in
  let email := lit "  Alice@Example.com " in
  normalized (H := Fixture.imports) (normalized (H := Fixture.imports) email)
  = normalized (H := Fixture.imports) email
  /\ emailHash (H := Fixture.imports) (normalized (H := Fixture.imports) email)
     = emailHash (H := Fixture.imports) email
  /\ route (H := Fixture.imports) w (normalized (H := Fixture.imports) email) 80
     = route (H := Fixture.imports) w email 80.
Proof.
  intros w email.
  apply (normalized_idempotent (H := Fixture.imports) w email 80
           (fun s _ => eq_refl)).
  repeat (constructor; [reflexivity|]). constructor.
Defined.

Lemma domain_of_address_witness :
  let w := Fixture.discovered [("dohServer", "https://dns.example/dns-query")]%string
             (Fixture.image "image/png" Fixture.png_bytes) in
  let email := lit " Bob@Example.ORG " in
  domain (H := Fixture.imports) email = Some (lit "example.org")
  /\ (forall dohServer : jsstring,
        storage_get w "dohServer" = Some dohServer -> dohServer <> [] ->
        dnsData (H := Fixture.imports) w email
        = queryAvatarService w (Some (lit "example.org")) dohServer).
Proof.
  intros w email.
  apply (domain_of_address (H := Fixture.imports) w email
           (lit "Bob") (lit "Example.ORG") (fun s _ => eq_refl)).
  - repeat (constructor; [reflexivity|]). constructor.
  - reflexivity.
  - apply (bool_decide_unpack _). vm_compute. exact I.
  - apply (bool_decide_unpack _). vm_compute. exact I.
Defined.

Example getAvatar_body_rejected_ex :
  getAvatar (H := Fixture.imports)
    (Fixture.serving []
       {| ok := true; content_type := Some (lit "image/png"); body := Rejected |})
    (lit "bob@example.org") 64 []
  = (Rejected,
     [EFetch (lit "https://default.example/avatar/sha256:bob@example.org?s=64&d=identicon");
      EBlob]).
Proof. vm_compute. reflexivity. Qed.
